(** * dune-api: resource paths, resource changes and the resource router

    A shallow embedding of [resourcepath.ts], [resource.ts] and [data.ts].

    - JavaScript exceptions are explicit: a function that can throw returns a
      [Completion], a promise is the [Outcome] it settles with.
    - A value of type [ResourcePath | null | undefined] is a [PathValue]; the
      [resolve] member of a node is the closure [resolvePath(this, _)] and is
      kept as the function [resolve], not as data.
    - A store is threaded explicitly; every call the router makes on a
      resource is recorded in the world it runs in. *)

From stdpp Require Import base strings list gmap pretty.

Open Scope string_scope.
Open Scope list_scope.

(** ** Exceptions *)

(** The errors the code raises.  [NullDeref p] is the [TypeError] the engine
    raises when property [p] is read from [null] or [undefined], and
    [NotCallable m] the one for calling a missing member [m]. *)
Inductive JsError :=
| SyntaxError (message : string)
| TypeError (message : string)
| RangeError
| PlainError (message : string)
| NullDeref (property : string)
| NotCallable (member : string)
| RejectedUndefined.

Definition isSyntaxError (e : JsError) : bool :=
  match e with SyntaxError _ => true | _ => false end.

Definition isTypeError (e : JsError) : bool :=
  match e with TypeError _ | NullDeref _ | NotCallable _ => true | _ => false end.

Inductive Completion (A : Type) :=
| Return (a : A)
| Throw (e : JsError).
Arguments Return {A} a.
Arguments Throw {A} e.

#[global] Instance Completion_ret : MRet Completion := fun _ a => Return a.
#[global] Instance Completion_bind : MBind Completion := fun _ _ f c =>
  match c with
  | Return a => f a
  | Throw e => Throw e
  end.

(** ** Resource paths ([resourcepath.ts]) *)

Module PathAlgebra.

(** [ResourcePath | null | undefined].  [absolute] and [relative] are the
    optional boolean members of the interface. *)
Inductive PathValue :=
| null
| undefined
| Node (name : string) (parent : PathValue) (absolute relative : option bool).

Definition isNull (p : PathValue) : bool :=
  match p with null => true | _ => false end.

Definition isUndefined (p : PathValue) : bool :=
  match p with undefined => true | _ => false end.

(** [p == null]. *)
Definition isNullish (p : PathValue) : bool :=
  match p with Node _ _ _ _ => false | _ => true end.

(** Member reads; on [null] and [undefined] they throw. *)
Definition get_absolute (p : PathValue) : Completion (option bool) :=
  match p with
  | Node _ _ a _ => Return a
  | _ => Throw (NullDeref "absolute")
  end.

Definition get_relative (p : PathValue) : Completion (option bool) :=
  match p with
  | Node _ _ _ r => Return r
  | _ => Throw (NullDeref "relative")
  end.

(** [while (cursor != null && cursor.absolute != null) cursor = cursor.parent] *)
Fixpoint isAbsolute_walk (cursor : PathValue) : PathValue :=
  match cursor with
  | Node _ parent (Some _) _ => isAbsolute_walk parent
  | _ => cursor
  end.

(** [return cursor.absolute != null ? cursor.absolute : cursor === null] *)
Definition isAbsolute (path : PathValue) : Completion bool :=
  let cursor := isAbsolute_walk path in
  a ← get_absolute cursor;
  match a with
  | Some b => Return b
  | None => Return (isNull cursor)
  end.

Fixpoint isRelative_walk (cursor : PathValue) : PathValue :=
  match cursor with
  | Node _ parent _ (Some _) => isRelative_walk parent
  | _ => cursor
  end.

Definition isRelative (path : PathValue) : Completion bool :=
  let cursor := isRelative_walk path in
  r ← get_relative cursor;
  match r with
  | Some b => Return b
  | None => Return (isUndefined cursor)
  end.

(** The object literal of the factory. *)
Definition newNode (name : string) (parent : PathValue) : PathValue :=
  Node name parent
    (match parent with
     | Node _ _ a _ => a
     | _ => Some (isNull parent)
     end)
    (match parent with
     | Node _ _ _ r => r
     | _ => Some (isUndefined parent)
     end).

Definition isRelativeStep (name : string) : bool :=
  String.eqb name ".." || String.eqb name ".".

(** The factory [ResourcePath(name, parent = undefined)]. *)
Definition ResourcePath (name : string) (parent : PathValue) : Completion PathValue :=
  if String.eqb name "" then
    Throw (SyntaxError "An empty path segment is not allowed")
  else if isRelativeStep name then
    abs ← isAbsolute parent;
    if abs : bool then
      Throw (SyntaxError "Absolute path does not allow relative segments")
    else if negb (isNullish parent) then
      Return parent
    else
      Return (newNode name parent)
  else
    Return (newNode name parent).

(** The second argument of [resolvePath]: [ResourcePath | string]. *)
Inductive PathArg :=
| ArgString (s : string)
| ArgPath (p : PathValue).

(** [while (cursor != null) { pathResources.unshift(cursor.name); cursor = cursor.parent }];
    the result is the list and the cursor the loop stopped at. *)
Fixpoint collect (cursor : PathValue) (pathResources : list string)
  : list string * PathValue :=
  match cursor with
  | Node name parent _ _ => collect parent (name :: pathResources)
  | _ => (pathResources, cursor)
  end.

(** The body of the [forEach] callback, on the captured variable [parent]. *)
Definition replaySegment (parent : PathValue) (segment : string) (index : nat)
  : Completion PathValue :=
  if String.eqb segment "." then
    Return parent
  else if String.eqb segment ".." then
    match parent with
    | Node _ grandparent _ _ => Return grandparent
    | _ => Throw (SyntaxError ("Invalid relative path at segment " +:+ pretty index +:+ "."))
    end
  else if String.eqb segment "" then
    Throw (SyntaxError ("Invalid path segment " +:+ pretty index +:+ ": An empty segment."))
  else if negb (String.eqb segment ".") then
    ResourcePath segment parent
  else
    Return parent.

Fixpoint forEach (pathResources : list string) (index : nat) (parent : PathValue)
  : Completion PathValue :=
  match pathResources with
  | [] => Return parent
  | segment :: rest =>
      parent' ← replaySegment parent segment index;
      forEach rest (S index) parent'
  end.

Definition resolvePath (current : PathValue) (path : PathArg) : Completion PathValue :=
  childPath ← match path with
              | ArgString s => ResourcePath s undefined
              | ArgPath p => Return p
              end;
  let '(pathResources, cursor) := collect childPath [] in
  if isUndefined cursor then
    let parent := cursor in
    forEach pathResources 0 parent
  else if existsb isRelativeStep pathResources then
    Throw (SyntaxError "Absolute path cannot contain relative elements.")
  else
    Return childPath.

(** The [resolve] member of a node. *)
Definition resolve (this : PathValue) (path : PathArg) : Completion PathValue :=
  resolvePath this path.

(** *** Notions the properties are stated with *)

(** The marker an ancestor chain ends in. *)
Fixpoint terminal (p : PathValue) : PathValue :=
  match p with
  | Node _ parent _ _ => terminal parent
  | _ => p
  end.

(** The segment names of a chain, root first. *)
Fixpoint segments (p : PathValue) : list string :=
  match p with
  | Node name parent _ _ => segments parent ++ [name]
  | _ => []
  end.

(** [q] is [p] or one of its ancestors. *)
Fixpoint extends (p q : PathValue) : Prop :=
  p = q \/
  match p with
  | Node _ parent _ _ => extends parent q
  | _ => False
  end.

(** The invariant of a node and of all its ancestors. *)
Fixpoint pathInvariant (p : PathValue) : bool :=
  match p with
  | Node name parent (Some a) (Some r) =>
      negb (String.eqb name "")
      && Bool.eqb a (negb r)
      && Bool.eqb a (isNull (terminal parent))
      && Bool.eqb r (isUndefined (terminal parent))
      && pathInvariant parent
  | Node _ _ _ _ => false
  | _ => true
  end.

(** The chains the factory builds from names other than "." and "..". *)
Inductive factoryBuilt : PathValue -> Prop :=
| built_first name parent p :
    isNullish parent = true ->
    isRelativeStep name = false ->
    ResourcePath name parent = Return p ->
    factoryBuilt p
| built_child name parent p :
    factoryBuilt parent ->
    isRelativeStep name = false ->
    ResourcePath name parent = Return p ->
    factoryBuilt p.

End PathAlgebra.

(** ** Resource changes ([resourcepath.ts]) *)

Module Changes.
Import PathAlgebra.

Inductive ResourceChangeType := add | remove | update | move.

(** [ResourceAdded], [ResourceRemoved], [ResourceChanged] and
    [ResourceMoved]: the members each variant of [ResourceChange] has. *)
Inductive ResourceChange (V : Type) :=
| ResourceAdded (resource : PathArg) (value : V)
| ResourceRemoved (resource : PathArg)
| ResourceChanged (resource : PathArg) (value : V)
| ResourceMoved (resource : string) (value : option V) (newResource : PathArg).
Arguments ResourceAdded {V} resource value.
Arguments ResourceRemoved {V} resource.
Arguments ResourceChanged {V} resource value.
Arguments ResourceMoved {V} resource value newResource.

Definition changeType {V} (c : ResourceChange V) : ResourceChangeType :=
  match c with
  | ResourceAdded _ _ => add
  | ResourceRemoved _ => remove
  | ResourceChanged _ _ => update
  | ResourceMoved _ _ _ => move
  end.

End Changes.

(** ** Promises and the world a handler runs in *)

Module Async.

(** What a call that returns a promise ends in: the promise fulfils, the
    promise rejects, or the call itself throws before a promise exists. *)
Inductive Outcome (A : Type) :=
| Fulfilled (a : A)
| Rejected (e : JsError)
| Thrown (e : JsError).
Arguments Fulfilled {A} a.
Arguments Rejected {A} e.
Arguments Thrown {A} e.

(** A computation over a world [W]. *)
Definition Task (W A : Type) : Type := W -> Outcome A * W.

Section Combinators.
Context {W : Type}.

Definition resolved {A} (a : A) : Task W A := fun w => (Fulfilled a, w).
Definition reject {A} (e : JsError) : Task W A := fun w => (Rejected e, w).

(** A throw inside a callback of [then] or [catch] rejects the promise
    that [then] or [catch] returned. *)
Definition settle {A} (r : Outcome A * W) : Outcome A * W :=
  match r with
  | (Thrown e, w) => (Rejected e, w)
  | _ => r
  end.

(** [p.then(onFulfilled)] *)
Definition then_ {A B} (p : Task W A) (onFulfilled : A -> Task W B) : Task W B :=
  fun w =>
    match p w with
    | (Fulfilled a, w') => settle (onFulfilled a w')
    | (Rejected e, w') => (Rejected e, w')
    | (Thrown e, w') => (Thrown e, w')
    end.

(** [p.then(onFulfilled, onRejected)] *)
Definition then2 {A B} (p : Task W A) (onFulfilled : A -> Task W B)
    (onRejected : JsError -> Task W B) : Task W B :=
  fun w =>
    match p w with
    | (Fulfilled a, w') => settle (onFulfilled a w')
    | (Rejected e, w') => settle (onRejected e w')
    | (Thrown e, w') => (Thrown e, w')
    end.

(** [p.catch(onRejected)] *)
Definition catch_ {A} (p : Task W A) (onRejected : JsError -> Task W A) : Task W A :=
  fun w =>
    match p w with
    | (Rejected e, w') => settle (onRejected e w')
    | r => r
    end.

(** [new Promise((resolve, reject) => body)]: a throw of the executor
    rejects the promise. *)
Definition newPromise {A} (executor : Task W A) : Task W A :=
  fun w => settle (executor w).

(** [try { body } catch (err) { handler }] *)
Definition tryCatch {A} (body : Task W A) (handler : JsError -> Task W A) : Task W A :=
  fun w =>
    match body w with
    | (Thrown e, w') => handler e w'
    | r => r
    end.

(** A statement whose value is dropped, followed by the rest of the block. *)
Definition seq {A B} (first : Task W A) (rest : Task W B) : Task W B :=
  fun w =>
    match first w with
    | (Thrown e, w') => (Thrown e, w')
    | (_, w') => rest w'
    end.

(** A synchronous call that may throw. *)
Definition call {A} (c : Completion A) : Task W A :=
  fun w =>
    match c with
    | Return a => (Fulfilled a, w)
    | Throw e => (Thrown e, w)
    end.
End Combinators.

End Async.

(** ** The resource router ([resource.ts]) *)

Module Router.
Import PathAlgebra Changes Async.

Inductive RestMethod := GET | POST | PATCH | PUT | DELETE.

#[global] Instance RestMethod_eq_dec : EqDecision RestMethod.
Proof. solve_decision. Defined.

Definition methodName (m : RestMethod) : string :=
  match m with
  | GET => "GET" | POST => "POST" | PATCH => "PATCH" | PUT => "PUT" | DELETE => "DELETE"
  end.

(** A call the router makes on a resource. *)
Inductive StoreCall :=
| CallGetAll
| CallGet (key : string)
| CallUpdate (key : string)
| CallDelete (key : string)
| CallCreate
| CallAdjust (key : string).

(** What a template literal makes of a request body: the string the
    conversion gives, or the error it throws (an object whose own [toString]
    member is not a function cannot be converted). *)
Class BodyText (Body : Type) := bodyText : Body -> Completion string.

Section Resources.
(** [TYPE]: the values of the resource; [Store]: the state behind it;
    [Body]: what [express.json()] leaves in [req.body], with its
    conversion to a string. *)
Context {TYPE Store Body : Type} {bodyTextOf : BodyText Body}.

Definition ChangeList : Type := list (ResourceChange TYPE).

(** [Resource<TYPE>]; [adjust] is the member a [RecordResource<TYPE>] has
    on top.  The value [adjust] fulfils with is what the callers pass on
    as the change list. *)
Record Resource := {
  name : string;
  getAll : Store -> Outcome (list (string * TYPE)) * Store;
  get : string -> Store -> Outcome TYPE * Store;
  update : string -> TYPE -> Store -> Outcome unit * Store;
  delete : string -> Store -> Outcome bool * Store;
  create : TYPE -> Store -> Outcome string * Store;
  adjust : option (string -> ChangeList -> Store -> Outcome ChangeList * Store)
}.

(** The members of an express request the handlers read. *)
Record Request := {
  method : RestMethod;
  params_id : string;
  contentType : option string;
  body : Body
}.

(** What [res.json], [res.end] send. *)
Inductive Field :=
| FString (s : string)
| FBody (b : Body).

Inductive Payload :=
| JsonEntries (entries : list (string * TYPE))
| JsonValue (value : TYPE)
| JsonKey (key : string)
| JsonBool (b : bool)
| JsonObject (members : list (string * Field))
| Empty.

Record Response := { status : nat; payload : Payload }.

(** The store, the calls made on the resource so far, the responses sent. *)
Record World := {
  store : Store;
  calls : list StoreCall;
  sent : list Response
}.

Abbreviation Handler := (Request -> Task World unit).

(** [res.status(code).json(payload)], [res.json(payload)] (status 200)
    and [res.status(code).end()]. *)
Definition send (code : nat) (p : Payload) : Task World unit :=
  fun w => (Fulfilled tt,
            {| store := store w; calls := calls w;
               sent := sent w ++ [ {| status := code; payload := p |} ] |}).

(** A call of a member of the resource: it runs on the store and is
    recorded. *)
Definition invoke {A} (c : StoreCall) (op : Store -> Outcome A * Store) : Task World A :=
  fun w =>
    let '(r, s) := op (store w) in
    (r, {| store := s; calls := calls w ++ [c]; sent := sent w |}).

(** [console.log(text)]: evaluating the argument may throw; what is
    written goes to the console, which is not part of the world. *)
Definition consoleLog (text : Completion string) : Task World unit :=
  seq (call text) (resolved tt).

Definition createUnsupportedBodyError (req : Request) : JsError :=
  TypeError ("Unsupported content type " +:+ default "undefined" (contentType req)).

Definition createUnsupportedResourceError (resource : Resource) (operation : string) : JsError :=
  PlainError ("Unsupported " +:+ operation +:+ " for " +:+ name resource).

Definition sendInvalidResourceRequestMessage (req : Request) (resourceName key : string)
  : Task World unit :=
  send 400 (JsonObject [("message", FString "An invalid request.");
                        ("resource", FString resourceName)]).

Definition sendUnsupportedResourceMessage (req : Request) (resourceName operation : string)
  : Task World unit :=
  send 405 (JsonObject [("message", FString ("The " +:+ resourceName +:+
                                             " does not support " +:+ operation));
                        ("resource", FString resourceName)]).

Definition sendResourceNotFoundMessage (req : Request) (resourceName key : string)
  : Task World unit :=
  send 404 (JsonObject [("message", FString ("The " +:+ resourceName +:+ "/" +:+ key +:+
                                             " does not exist."));
                        ("resource", FString resourceName)]).

(** ["adjust" in source] *)
Definition isRecordResource (source : Resource) : option Resource :=
  match adjust source with
  | Some _ => Some source
  | None => None
  end.

(** [target.adjust(id, changes)] *)
Definition callAdjust (target : Resource) (id : string) (changes : ChangeList)
  : Task World ChangeList :=
  match adjust target with
  | Some f => invoke (CallAdjust id) (f id changes)
  | None => fun w => (Thrown (NotCallable "adjust"), w)
  end.

(** [parseJsonResourceChanges] and [parseXmlResourceChanges] of
    [resourcepath.ts]. *)
Definition parseJsonResourceChanges (request : Request) : Task World ChangeList :=
  reject (PlainError "The parseJsonResourceChanges not implemented").

Definition parseXmlResourceChanges (request : Request) : Task World ChangeList :=
  reject (PlainError "The parseXmlResourceChanges not implemented").

(** [parseResourceChanges(request, contentType)] of [resourcepath.ts]. *)
Definition parseResourceChangesOfType (request : Request) (contentType : string)
  : Task World ChangeList :=
  if String.eqb contentType "application/json" then parseJsonResourceChanges request
  else if String.eqb contentType "application/xml" then parseXmlResourceChanges request
  else reject RejectedUndefined.

Definition parseBody (request : Request) (parser : Body -> Completion TYPE)
  : Task World TYPE :=
  newPromise (call (parser (body request))).

(** [parseResourceChanges(request, resource)] of [resource.ts]. *)
Definition parseResourceChanges (request : Request) (resource : Resource)
  : Task World ChangeList :=
  newPromise
    match isRecordResource resource with
    | Some target =>
        let id := params_id request in
        match contentType request with
        | Some ct =>
            if String.eqb ct "application/xml" then
              then_ (parseXmlResourceChanges request)
                    (fun changes => callAdjust target id changes)
            else if String.eqb ct "application/json" then
              then_ (parseJsonResourceChanges request)
                    (fun changes => callAdjust target id changes)
            else reject (createUnsupportedBodyError request)
        | None => reject (createUnsupportedBodyError request)
        end
    | None => reject (createUnsupportedResourceError resource "patch")
    end.

Section Handlers.
Variable resource : Resource.
Variable parser : option (Body -> Completion TYPE).

Definition unavailable (key : string) : Payload :=
  JsonObject [("message", FString "The resource is not available.");
              (key, FString (name resource))].

Definition notFound : Payload :=
  JsonObject [("message", FString "Not found"); ("resource", FString (name resource))].

Definition invalid (b : Body) : Payload :=
  JsonObject [("message", FString ("Invalid " +:+ name resource +:+ "."));
              ("resource", FString (name resource)); ("value", FBody b)].

Definition unsupported : Payload :=
  JsonObject [("message", FString ("Unsupported " +:+ name resource +:+ " operation."));
              ("resource", FString (name resource))].

(** [app.get(path, ...)] *)
Definition listHandler : Handler := fun req =>
  tryCatch
    (then2 (invoke CallGetAll (getAll resource))
           (fun result => send 200 (JsonEntries result))
           (fun error => send 500 (unavailable "resource")))
    (fun err => send 500 (unavailable "resuorce")).

(** [app.get(path + "/:id", ...)] *)
Definition getHandler : Handler := fun req =>
  let id := params_id req in
  tryCatch
    (then2 (invoke (CallGet id) (get resource id))
           (fun result => send 200 (JsonValue result))
           (fun error => send 404 notFound))
    (fun err => send 500 (unavailable "resource")).

(** [app.post(path, ...)] *)
Definition createHandler : Handler := fun req =>
  match parser with
  | Some parse =>
      let body := body req in
      catch_
        (then_ (parseBody req parse)
               (fun result =>
                  then_ (invoke CallCreate (create resource result))
                        (fun id =>
                           seq (consoleLog
                                  (text ← bodyText body;
                                   mret ("Created a new " +:+ name resource +:+ ": id=" +:+ id
                                         +:+ ", value: " +:+ text)))
                               (send 201 (JsonKey id)))))
        (fun err => send 400 (invalid body))
  | None => send 405 unsupported
  end.

(** [app.post(path + "/:id", ...)] *)
Definition updateHandler : Handler := fun req =>
  match parser with
  | Some parse =>
      let id := params_id req in
      let body := body req in
      catch_
        (then_ (parseBody req parse)
               (fun result =>
                  then_ (invoke (CallUpdate id) (update resource id result))
                        (fun _ =>
                           seq (consoleLog
                                  (text ← bodyText body;
                                   mret ("Updated " +:+ name resource +:+ ": id=" +:+ id
                                         +:+ ", value: " +:+ text)))
                               (send 204 Empty))))
        (fun err => send 400 (invalid body))
  | None => send 405 unsupported
  end.

(** [app.patch(path + ":id", ...)]; the promise of the inner
    [adjust(...).then(...)] is not returned by the callback. *)
Definition patchHandler : Handler := fun req =>
  match isRecordResource resource with
  | Some target =>
      catch_
        (then_ (parseResourceChanges req resource)
               (fun changes =>
                  let id := params_id req in
                  seq (then2 (callAdjust target id changes)
                             (fun result => send 204 Empty)
                             (fun err => sendResourceNotFoundMessage req (name resource) id))
                      (resolved tt)))
        (fun err => sendInvalidResourceRequestMessage req (name resource)
                      (methodName (method req)))
  | None =>
      sendUnsupportedResourceMessage req (name resource) (methodName (method req))
  end.

(** [app.delete(path + "/:id", ...)] *)
Definition deleteHandler : Handler := fun req =>
  let id := params_id req in
  tryCatch
    (then2 (invoke (CallDelete id) (delete resource id))
           (fun result => send 200 (JsonBool result))
           (fun error => send 404 notFound))
    (fun err => send 500 (unavailable "resuorce")).

(** A route of the express application: method, path pattern, handler. *)
Record Route := { routeMethod : RestMethod; routePath : string; routeHandler : Handler }.

(** [registerResource(app, path, resource, parser)]: the routes it adds
    to [app], in the order it adds them. *)
Definition registerResource (app : list Route) (path : string) : list Route :=
  app ++
  [ {| routeMethod := GET; routePath := path; routeHandler := listHandler |};
    {| routeMethod := GET; routePath := path +:+ "/:id"; routeHandler := getHandler |};
    {| routeMethod := POST; routePath := path; routeHandler := createHandler |};
    {| routeMethod := POST; routePath := path +:+ "/:id"; routeHandler := updateHandler |};
    {| routeMethod := PATCH; routePath := path +:+ ":id"; routeHandler := patchHandler |};
    {| routeMethod := DELETE; routePath := path +:+ "/:id"; routeHandler := deleteHandler |} ].

(** The [registerResource] of [src/main/resource.ts]: the same routes,
    with an empty [app.put(path + ":id", ...)] where the other has
    [app.patch]. *)
Definition registerResourceMain (app : list Route) (path : string) : list Route :=
  app ++
  [ {| routeMethod := GET; routePath := path; routeHandler := listHandler |};
    {| routeMethod := GET; routePath := path +:+ "/:id"; routeHandler := getHandler |};
    {| routeMethod := POST; routePath := path; routeHandler := createHandler |};
    {| routeMethod := POST; routePath := path +:+ "/:id"; routeHandler := updateHandler |};
    {| routeMethod := PUT; routePath := path +:+ ":id"; routeHandler := fun _ => resolved tt |};
    {| routeMethod := DELETE; routePath := path +:+ "/:id"; routeHandler := deleteHandler |} ].

(** The path patterns registered for a method. *)
Definition patternsOf (m : RestMethod) (routes : list Route) : list string :=
  routePath <$> filter (fun r => routeMethod r = m) routes.
End Handlers.
End Resources.

Arguments Resource : clear implicits.
Arguments Request : clear implicits.
Arguments World : clear implicits.
Arguments Response : clear implicits.
Arguments Payload : clear implicits.
Arguments Route : clear implicits.

End Router.

(** ** The sample store ([data.ts], [sklll.ts]) *)

Module Data.
Import Async Router.

(** The interface [Skill]. *)
Record SkillValue := { skillName : string; description : option string }.

(** The factory [Skill(name, description = undefined)]. *)
Definition Skill (name : string) (description : option string) : SkillValue :=
  {| skillName := name; description := description |}.

(** A JavaScript [Map<string, V>]: its entries in insertion order, one per
    key. *)
Section JsMap.
Context {V : Type}.

Fixpoint mapGet (key : string) (m : list (string * V)) : option V :=
  match m with
  | [] => None
  | (k, v) :: rest => if String.eqb k key then Some v else mapGet key rest
  end.

Definition mapHas (key : string) (m : list (string * V)) : bool :=
  match mapGet key m with Some _ => true | None => false end.

(** [m.set(key, value)]: a present key keeps its place. *)
Fixpoint mapSet (key : string) (value : V) (m : list (string * V)) : list (string * V) :=
  match m with
  | [] => [(key, value)]
  | (k, v) :: rest =>
      if String.eqb k key then (k, value) :: rest else (k, v) :: mapSet key value rest
  end.

(** [m.delete(key)]: the entries left, and whether the key was there. *)
Fixpoint mapDelete (key : string) (m : list (string * V)) : bool * list (string * V) :=
  match m with
  | [] => (false, [])
  | (k, v) :: rest =>
      if String.eqb k key then (true, rest)
      else let '(found, rest') := mapDelete key rest in (found, (k, v) :: rest')
  end.
End JsMap.

(** The module variable [data], and how many identifiers [randomUUID] has
    handed out. *)
Record DataStore := { skills : list (string * SkillValue); drawn : nat }.

Definition data : DataStore :=
  {| skills := [("1", Skill "Battle" (Some "An ability to fight or command."));
                ("2", Skill "Communication" (Some "Communicate with other people"))];
     drawn := 0 |}.

Section SkillsResource.
(** The identifiers [randomUUID()] returns, in the order of the calls. *)
Variable randomUUID : nat -> string.

Definition Skills_getAll (d : DataStore) : Outcome (list (string * SkillValue)) * DataStore :=
  (Fulfilled (skills d), d).

Definition Skills_get (key : string) (d : DataStore) : Outcome SkillValue * DataStore :=
  newPromise (fun d =>
    match mapGet key (skills d) with
    | Some v => (Fulfilled v, d)
    | None => (Rejected RangeError, d)
    end) d.

Definition Skills_update (key : string) (value : SkillValue) (d : DataStore)
  : Outcome unit * DataStore :=
  newPromise (fun d =>
    if mapHas key (skills d) then
      (Fulfilled tt, {| skills := mapSet key value (skills d); drawn := drawn d |})
    else
      (Rejected RangeError, d)) d.

Definition Skills_delete (key : string) (d : DataStore) : Outcome bool * DataStore :=
  newPromise (fun d =>
    if mapHas key (skills d) then
      let '(found, rest) := mapDelete key (skills d) in
      (Fulfilled found, {| skills := rest; drawn := drawn d |})
    else
      (Rejected RangeError, d)) d.

Definition Skills_create (value : SkillValue) (d : DataStore) : Outcome string * DataStore :=
  newPromise (fun d =>
    let id := randomUUID (drawn d) in
    (Fulfilled id, {| skills := mapSet id value (skills d); drawn := S (drawn d) |})) d.

(** The object [Skills]: a [Resource<Skill>] with no [adjust] member. *)
Definition Skills : Resource SkillValue DataStore :=
  {| name := "skill";
     getAll := Skills_getAll;
     get := Skills_get;
     update := Skills_update;
     delete := Skills_delete;
     create := Skills_create;
     adjust := None |}.
End SkillsResource.

(** The bodies [express.json()] hands to the parser [server.ts] registers
    the skills with: the empty array; another array, with what converting
    it to a string gives; an object whose [name] and [description] members
    are read and which has no member named [toString]; and such an object
    that has a member named [toString]. *)
Inductive SkillBody :=
| ArrayBody
| ObjectBody (name : string) (description : option string)
| ArrayOf (text : Completion string)
| ObjectWithToString (name : string) (description : option string).

Definition skillParser (values : SkillBody) : Completion SkillValue :=
  match values with
  | ArrayBody | ArrayOf _ => Throw (SyntaxError "Cannot handle more than skill.")
  | ObjectBody n d | ObjectWithToString n d => Return (Skill n d)
  end.

(** The string a template literal makes of a body.  A member of a parsed
    body is never a function, so an object with its own [toString] member
    cannot be converted. *)
#[global] Instance SkillBody_text : BodyText SkillBody := fun values =>
  match values with
  | ArrayBody => Return ""
  | ArrayOf text => text
  | ObjectBody _ _ => Return "[object Object]"
  | ObjectWithToString _ _ => Throw (TypeError "Cannot convert object to primitive value")
  end.

End Data.

(** ** Applying a batch of changes to a record *)

Module Adjust.
Import PathAlgebra Changes Async.

Section RecordResource.
(** [V]: the content of a property; a record maps property names to their
    content, a store maps keys to records. *)
Context {V : Type}.

(** [properties()] and [validValue(source, property, value)] of the
    interface [RecordResource]. *)
Variable properties : list string.
Variable validValue : gmap string V -> string -> V -> bool.

(** Modelled from the spec: the property a change addresses, its [resource]
    being a plain key or a path (whose last segment names the property);
    the code has no reader of [ResourceChange.resource]. *)
Definition addressed (resource : PathArg) : option string :=
  match resource with
  | ArgString s => Some s
  | ArgPath (Node name _ _ _) => Some name
  | ArgPath _ => None
  end.

(** Modelled from the spec: a property is recognized when [properties()]
    lists it; no code of the repository calls [properties]. *)
Definition recognized (property : string) : bool :=
  bool_decide (property ∈ properties).

(** Modelled from the spec: [changeValue] is declared in the interface and
    implemented nowhere; update and add set a new value. *)
Definition changeValue (source : gmap string V) (property : string) (value : V)
  : gmap string V :=
  <[property := value]> source.

(** Modelled from the spec: the validation of one descriptor (the addressed
    property is recognized and the proposed value acceptable), which no
    code of the repository implements. *)
Definition validChange (source : gmap string V) (c : ResourceChange V) : bool :=
  match c with
  | ResourceAdded r v | ResourceChanged r v =>
      match addressed r with
      | Some p => recognized p && validValue source p v
      | None => false
      end
  | ResourceRemoved r =>
      match addressed r with
      | Some p => recognized p
      | None => false
      end
  | ResourceMoved r _ dest =>
      match addressed dest, source !! r with
      | Some q, Some v => recognized r && recognized q && validValue source q v
      | _, _ => false
      end
  end.

(** Modelled from the spec: the effect of one descriptor, which no code of
    the repository implements: update and add set a new value, remove
    clears the property, move reassigns the location of the content. *)
Definition applyChange (source : gmap string V) (c : ResourceChange V) : gmap string V :=
  match c with
  | ResourceAdded r v | ResourceChanged r v =>
      match addressed r with
      | Some p => changeValue source p v
      | None => source
      end
  | ResourceRemoved r =>
      match addressed r with
      | Some p => base.delete p source
      | None => source
      end
  | ResourceMoved r _ dest =>
      match addressed dest, source !! r with
      | Some q, Some v => changeValue (base.delete r source) q v
      | _, _ => source
      end
  end.

(** Modelled from the spec: every descriptor is validated, in order, on a
    copy of the current value, before anything is stored. *)
Fixpoint validBatch (source : gmap string V) (values : list (ResourceChange V)) : bool :=
  match values with
  | [] => true
  | c :: rest => validChange source c && validBatch (applyChange source c) rest
  end.

(** Modelled from the spec: [RecordResource.adjust], declared in the
    interface and implemented by no resource of the repository. *)
Definition adjust (key : string) (values : list (ResourceChange V))
    (store : gmap string (gmap string V)) : Outcome unit * gmap string (gmap string V) :=
  match store !! key with
  | None => (Rejected RangeError, store)
  | Some current =>
      if validBatch current values then
        (Fulfilled tt, <[key := foldl applyChange current values]> store)
      else
        (Rejected (SyntaxError ("Invalid change of " +:+ key)), store)
  end.
End RecordResource.

End Adjust.

(** ** Sample values *)

Module Samples.
Import PathAlgebra Changes Async Router Data.

(** The paths [ResourcePath("base", null)], [ResourcePath("a", null)],
    [ResourcePath("b", ResourcePath("a", null))] and [ResourcePath("x")]. *)
Definition basePath : PathValue := Node "base" null (Some true) (Some false).
Definition absoluteA : PathValue := Node "a" null (Some true) (Some false).
Definition absoluteAB : PathValue := Node "b" absoluteA (Some true) (Some false).
Definition relativeX : PathValue := Node "x" undefined (Some false) (Some true).

(** The skills of [server.ts], a record resource over the same store whose
    [adjust] accepts every batch, and requests on them. *)
Definition uuids (n : nat) : string := "uuid-" +:+ pretty n.

Definition skillsResource : Resource SkillValue DataStore := Skills uuids.

Definition recordSkills : Resource SkillValue DataStore :=
  {| name := "skill";
     getAll := Skills_getAll;
     get := Skills_get;
     update := Skills_update;
     delete := Skills_delete;
     create := Skills_create uuids;
     adjust := Some (fun _ changes d => (Fulfilled changes, d)) |}.

Definition startWorld : World SkillValue DataStore SkillBody :=
  {| store := data; calls := []; sent := [] |}.

Definition request (m : RestMethod) (id : string) (ct : option string)
  : Request SkillBody :=
  {| method := m; params_id := id; contentType := ct;
     body := ObjectBody "Prudence" None |}.

(** A record with the numeric properties [a] and [b], in a store under the
    key ["k"]: a property takes numbers and refuses text. *)
Inductive Content := Num (n : Z) | Text (s : string).

Definition numericOnly (source : gmap string Content) (property : string) (value : Content)
  : bool :=
  match value with Num _ => true | Text _ => false end.

Definition recordAB : gmap string Content := {[ "a" := Num 1; "b" := Num 2 ]}.

Definition recordStore : gmap string (gmap string Content) := {[ "k" := recordAB ]}.

Definition batchAB : list (ResourceChange Content) :=
  [ ResourceChanged (ArgString "a") (Num 5);
    ResourceChanged (ArgString "b") (Text "invalid") ].

End Samples.

(** ** Reference notions for the path algebra and the sample store *)

Module Reference.
Import PathAlgebra.

(** What replaying segments does to the names of the cursor, the names
    held leaf first: ["."] keeps them, [".."] drops the leaf name and fails
    when there is none, an empty segment fails, any other segment becomes
    the new leaf name. *)
Fixpoint normalize (leafFirst : list string) (pathResources : list string)
  : option (list string) :=
  match pathResources with
  | [] => Some leafFirst
  | segment :: rest =>
      if String.eqb segment "." then normalize leafFirst rest
      else if String.eqb segment ".." then
        match leafFirst with
        | [] => None
        | _ :: outer => normalize outer rest
        end
      else if String.eqb segment "" then None
      else normalize (segment :: leafFirst) rest
  end.

(** The relative chain with the given names, leaf first, each node as the
    factory makes it. *)
Fixpoint chainOf (leafFirst : list string) : PathValue :=
  match leafFirst with
  | [] => undefined
  | name :: outer => newNode name (chainOf outer)
  end.

(** A name the factory stores: not empty, not ["."], not [".."]. *)
Definition plainName (name : string) : bool :=
  negb (String.eqb name "") && negb (isRelativeStep name).

(** Every node of the chain has its [absolute] member set. *)
Fixpoint absoluteSet (p : PathValue) : bool :=
  match p with
  | Node _ parent (Some _) _ => absoluteSet parent
  | Node _ _ None _ => false
  | _ => true
  end.

(** Every node of the chain has its [relative] member set. *)
Fixpoint relativeSet (p : PathValue) : bool :=
  match p with
  | Node _ parent _ (Some _) => relativeSet parent
  | Node _ _ _ None => false
  | _ => true
  end.

(** The argument of [resolvePath] is a string or a chain that ends in
    [undefined]. *)
Definition relativeArg (path : PathArg) : bool :=
  match path with
  | ArgString _ => true
  | ArgPath p => isUndefined (terminal p)
  end.

(** The keys of a JavaScript [Map], in insertion order. *)
Definition mapKeys {V} (m : list (string * V)) : list string := fst <$> m.

End Reference.

(** * Properties *)

Module PathFacts.
Import PathAlgebra.

Lemma collect_spec (p : PathValue) (acc : list string) :
  collect p acc = (segments p ++ acc, terminal p).
Proof.
  revert acc. induction p as [| |name parent IH a r]; intros acc; simpl; try done.
  rewrite IH. by rewrite <- app_assoc.
Qed.

Lemma terminal_nullish (p : PathValue) : isNullish (terminal p) = true.
Proof. induction p; simpl; auto. Qed.

Lemma isRelativeStep_nonempty (name : string) :
  isRelativeStep name = false -> String.eqb name "" = false ->
  ResourcePath name = fun parent => Return (newNode name parent).
Proof. intros Hstep Hne. unfold ResourcePath. by rewrite Hne, Hstep. Qed.

Lemma ResourcePath_plain (name : string) (parent : PathValue) :
  isRelativeStep name = false -> String.eqb name "" = false ->
  ResourcePath name parent = Return (newNode name parent).
Proof. intros Hstep Hne. by rewrite isRelativeStep_nonempty. Qed.

Lemma ResourcePath_plain_inv (name : string) (parent child : PathValue) :
  isRelativeStep name = false ->
  ResourcePath name parent = Return child ->
  String.eqb name "" = false /\ child = newNode name parent.
Proof.
  intros Hstep. unfold ResourcePath. rewrite Hstep.
  destruct (String.eqb name ""); [discriminate|].
  intros [= <-]. done.
Qed.

Lemma newNode_invariant (name : string) (parent : PathValue) :
  String.eqb name "" = false ->
  pathInvariant parent = true ->
  pathInvariant (newNode name parent) = true.
Proof.
  intros Hne Hinv. destruct parent as [| |n gp [a|] [r|]]; simpl in *;
    rewrite ?Hne; simpl; try done.
  repeat (apply andb_prop in Hinv as [Hinv ?]).
  repeat (apply andb_true_intro; split); simpl; done.
Qed.

Lemma factoryBuilt_invariant (p : PathValue) :
  factoryBuilt p -> pathInvariant p = true.
Proof.
  induction 1 as [name parent p Hnull Hstep Hmk | name parent p Hb IH Hstep Hmk];
    apply ResourcePath_plain_inv in Hmk as [Hne ->]; try done;
    apply newNode_invariant; try done.
  by destruct parent.
Qed.

(** Under the invariant every [absolute] and [relative] member on the chain
    is set, so both walks run to the end of the chain. *)
Lemma invariant_walks (p : PathValue) :
  pathInvariant p = true ->
  isAbsolute_walk p = terminal p /\ isRelative_walk p = terminal p.
Proof.
  induction p as [| |name parent IH [a|] [r|]]; simpl; try done.
  intros Hinv. apply andb_prop in Hinv as [_ Hinv]. auto.
Qed.

Lemma invariant_isAbsolute (p : PathValue) :
  pathInvariant p = true -> isAbsolute p = Throw (NullDeref "absolute").
Proof.
  intros Hinv. unfold isAbsolute. rewrite (proj1 (invariant_walks p Hinv)).
  pose proof (terminal_nullish p). by destruct (terminal p).
Qed.

Lemma invariant_isRelative (p : PathValue) :
  pathInvariant p = true -> isRelative p = Throw (NullDeref "relative").
Proof.
  intros Hinv. unfold isRelative. rewrite (proj2 (invariant_walks p Hinv)).
  pose proof (terminal_nullish p). by destruct (terminal p).
Qed.

(** The walk of [isAbsolute] stops at the end of the chain or at a node
    whose [absolute] member is not set. *)
Lemma isAbsolute_walk_stops (p : PathValue) :
  match isAbsolute_walk p with
  | Node _ _ a _ => a = None
  | _ => True
  end.
Proof. induction p as [| |name parent IH [a|] r]; simpl; auto. Qed.

Lemma isRelative_walk_stops (p : PathValue) :
  match isRelative_walk p with
  | Node _ _ _ r => r = None
  | _ => True
  end.
Proof. induction p as [| |name parent IH a [r|]]; simpl; auto. Qed.

(** What [isAbsolute] and [isRelative] can end in at all. *)
Lemma isAbsolute_results (p : PathValue) :
  isAbsolute p = Return false \/ isAbsolute p = Throw (NullDeref "absolute").
Proof.
  unfold isAbsolute. pose proof (isAbsolute_walk_stops p) as H.
  destruct (isAbsolute_walk p) as [| |n q a r]; simpl; auto.
  subst a. auto.
Qed.

Lemma isRelative_results (p : PathValue) :
  isRelative p = Return false \/ isRelative p = Throw (NullDeref "relative").
Proof.
  unfold isRelative. pose proof (isRelative_walk_stops p) as H.
  destruct (isRelative_walk p) as [| |n q a r]; simpl; auto.
  subst r. auto.
Qed.

Lemma resolvePath_chain (current p : PathValue) :
  resolvePath current (ArgPath p) =
  if isUndefined (terminal p) then forEach (segments p) 0 undefined
  else if existsb isRelativeStep (segments p) then
    Throw (SyntaxError "Absolute path cannot contain relative elements.")
  else Return p.
Proof.
  unfold resolvePath. simpl. rewrite collect_spec, app_nil_r.
  pose proof (terminal_nullish p). by destruct (terminal p).
Qed.

End PathFacts.

Module PathClaims.
Import PathAlgebra PathFacts Samples.

(** C1 (the code departs from the claim): [resolvePath] never reads its
    first argument.  The replay of a relative chain starts from [undefined],
    the cursor the collecting loop stopped at, so the result is the same for
    every base path; resolving the relative path [x] against the absolute
    path [/base] gives back the relative path [x], which does not extend
    [/base]; and a string is taken as one segment name, not split. *)
Theorem resolvePath_drops_current :
  (forall current other path, resolvePath current path = resolvePath other path) /\
  (forall current p, terminal p = undefined ->
     resolvePath current (ArgPath p) = forEach (segments p) 0 undefined) /\
  ResourcePath "base" null = Return basePath /\
  ResourcePath "x" undefined = Return relativeX /\
  resolvePath basePath (ArgPath relativeX) = Return relativeX /\
  ~ extends relativeX basePath /\
  resolve basePath (ArgString "x/y") = Return (Node "x/y" undefined (Some false) (Some true)).
Proof.
  split; [done|]. split.
  - intros current p Hp. rewrite resolvePath_chain. by rewrite Hp.
  - repeat split; try reflexivity.
    unfold relativeX, basePath. simpl. intros [H|[H|[]]]; discriminate.
Qed.

(** C2 (as stated, false): resolving the string ["/a/b"] gives one relative
    node named ["/a/b"] whose chain ends in [undefined], not in [null]; and
    an absolute chain with a ["."] segment is refused, not returned. *)
Lemma resolvePath_absolute_string_counterexample :
  resolvePath basePath (ArgString "/a/b")
    = Return (Node "/a/b" undefined (Some false) (Some true)) /\
  terminal (Node "/a/b" undefined (Some false) (Some true)) <> null /\
  resolvePath basePath (ArgPath (Node "." null (Some true) (Some false)))
    = Throw (SyntaxError "Absolute path cannot contain relative elements.").
Proof. repeat split; try reflexivity. simpl. discriminate. Qed.

(** C2 (amended): for every base path and every chain [p] that ends in
    [null], [resolvePath] returns [p] itself when no segment of [p] is ["."]
    or [".."], and fails with a syntax error when one is; the base path
    plays no part.  A string is not parsed into an absolute path: it is
    handed whole to the factory, so it stands for the one-segment chain the
    factory makes of it, which ends in [undefined], and it is resolved as
    that chain is. *)
Theorem resolvePath_absolute (current p : PathValue) (s : string) :
  terminal p = null ->
  (if existsb isRelativeStep (segments p)
   then resolvePath current (ArgPath p)
          = Throw (SyntaxError "Absolute path cannot contain relative elements.")
   else resolvePath current (ArgPath p) = Return p /\ terminal p = null) /\
  (forall child, ResourcePath s undefined = Return child ->
     child = Node s undefined (Some false) (Some true) /\
     terminal child = undefined /\
     resolvePath current (ArgString s) = resolvePath current (ArgPath child)).
Proof.
  intros Hp. split.
  - rewrite resolvePath_chain, Hp. simpl. by destruct (existsb _ _).
  - intros child Hmk.
    assert (child = Node s undefined (Some false) (Some true)) as Hchild.
    { unfold ResourcePath in Hmk. destruct (String.eqb s ""); [discriminate|].
      destruct (isRelativeStep s); [discriminate|]. by injection Hmk as <-. }
    split; [done|]. split; [by subst child|].
    unfold resolvePath at 1. by rewrite Hmk.
Qed.

Lemma resolvePath_absolute_witness :
  resolvePath basePath (ArgPath absoluteAB) = Return absoluteAB /\
  resolvePath basePath (ArgString "/a/b")
    = resolvePath basePath (ArgPath (Node "/a/b" undefined (Some false) (Some true))).
Proof.
  pose proof (resolvePath_absolute basePath absoluteAB "/a/b" eq_refl) as [H1 H2].
  simpl in H1. split.
  - exact (proj1 H1).
  - exact (proj2 (proj2 (H2 (Node "/a/b" undefined (Some false) (Some true)) eq_refl))).
Defined.

(** C3 (the code departs from the claim): with the name ["."] or [".."] the
    factory first asks [isAbsolute(parent)], and that call throws a
    [TypeError] for [null], for [undefined] and for every path the factory
    built: a relative parent is not returned, and an absolute parent does
    not give a syntax error. *)
Theorem ResourcePath_relative_step_throws :
  ResourcePath "a" undefined = Return (Node "a" undefined (Some false) (Some true)) /\
  ResourcePath "." (Node "a" undefined (Some false) (Some true))
    = Throw (NullDeref "absolute") /\
  ResourcePath ".." (Node "a" undefined (Some false) (Some true))
    = Throw (NullDeref "absolute") /\
  ResourcePath "." absoluteA = Throw (NullDeref "absolute") /\
  ResourcePath ".." absoluteA = Throw (NullDeref "absolute") /\
  ResourcePath "." undefined = Throw (NullDeref "absolute") /\
  ResourcePath ".." null = Throw (NullDeref "absolute") /\
  isSyntaxError (NullDeref "absolute") = false /\
  isTypeError (NullDeref "absolute") = true.
Proof. repeat split; reflexivity. Qed.

(** C4 (the code departs from the claim): after the walk both functions
    read a member of the cursor, which is [null] or [undefined] when the
    walk reached the end of the chain; so [isAbsolute] and [isRelative]
    throw a [TypeError] for [null], for [undefined], for
    [ResourcePath("a", null)] and for [ResourcePath("a", undefined)], and
    neither ever returns [true]. *)
Theorem isAbsolute_throws_at_chain_end :
  isAbsolute null = Throw (NullDeref "absolute") /\
  isAbsolute undefined = Throw (NullDeref "absolute") /\
  isRelative null = Throw (NullDeref "relative") /\
  isRelative undefined = Throw (NullDeref "relative") /\
  ResourcePath "a" null = Return absoluteA /\
  isAbsolute absoluteA = Throw (NullDeref "absolute") /\
  isAbsolute (Node "a" undefined (Some false) (Some true)) = Throw (NullDeref "absolute") /\
  isRelative (Node "a" undefined (Some false) (Some true)) = Throw (NullDeref "relative") /\
  (forall p, isAbsolute p = Return false \/ isAbsolute p = Throw (NullDeref "absolute")) /\
  (forall p, isRelative p = Return false \/ isRelative p = Throw (NullDeref "relative")).
Proof.
  repeat split; try reflexivity.
  - apply isAbsolute_results.
  - apply isRelative_results.
Qed.

(** C10: every chain the factory builds from names other than ["."] and
    [".."] satisfies the invariant at each of its nodes: the name is not
    empty, [absolute] and [relative] are booleans, [absolute] is the
    negation of [relative], [absolute] holds exactly when the chain ends in
    [null] and [relative] exactly when it ends in [undefined].  Appending a
    child with such a name through the factory succeeds for a non-empty
    name, gives a node with that name and that parent, and the child is
    again such a chain and satisfies the invariant. *)
Theorem factory_chain_invariant (p : PathValue) :
  factoryBuilt p ->
  pathInvariant p = true /\
  (forall name, isRelativeStep name = false -> String.eqb name "" = false ->
     exists a r,
       ResourcePath name p = Return (Node name p a r) /\
       factoryBuilt (Node name p a r) /\
       pathInvariant (Node name p a r) = true).
Proof.
  intros Hb. split; [by apply factoryBuilt_invariant|].
  intros name Hstep Hne.
  pose proof (ResourcePath_plain name p Hstep Hne) as Hmk.
  unfold newNode in Hmk. eexists _, _. split; [exact Hmk|].
  assert (factoryBuilt (newNode name p)) as Hchild.
  { eapply built_child; eauto. }
  split; [exact Hchild|]. by apply factoryBuilt_invariant.
Qed.

Lemma factory_chain_invariant_witness :
  pathInvariant absoluteAB = true /\
  exists a r, ResourcePath "c" absoluteAB = Return (Node "c" absoluteAB a r) /\
              factoryBuilt (Node "c" absoluteAB a r) /\
              pathInvariant (Node "c" absoluteAB a r) = true.
Proof.
  assert (factoryBuilt absoluteAB) as Hb.
  { apply (built_child "b" absoluteA); [|reflexivity|reflexivity].
    by apply (built_first "a" null). }
  destruct (factory_chain_invariant absoluteAB Hb) as [H1 H2].
  split; [exact H1|]. exact (H2 "c" eq_refl eq_refl).
Defined.

End PathClaims.

Module RouterFacts.
Import Async Router.

Section Generic.
Context {TYPE Store Body : Type} {bodyTextOf : BodyText Body}.
Implicit Types (resource : Resource TYPE Store) (req : Request Body)
  (w : World TYPE Store Body).

(** Both decoders reject whatever the request is, and leave the world as
    it was. *)
Lemma parseJsonResourceChanges_rejects req w :
  parseJsonResourceChanges (TYPE:=TYPE) req w
  = (Rejected (PlainError "The parseJsonResourceChanges not implemented"), w).
Proof. reflexivity. Qed.

Lemma parseXmlResourceChanges_rejects req w :
  parseXmlResourceChanges (TYPE:=TYPE) req w
  = (Rejected (PlainError "The parseXmlResourceChanges not implemented"), w).
Proof. reflexivity. Qed.

(** [parseResourceChanges] of [resource.ts] rejects for every request and
    every resource, without a call on the resource. *)
Lemma parseResourceChanges_rejects req resource w :
  exists e, parseResourceChanges req resource w = (Rejected e, w).
Proof.
  unfold parseResourceChanges, newPromise, isRecordResource.
  destruct (adjust resource); [|by eexists].
  destruct (contentType req) as [ct|]; [|by eexists].
  destruct (String.eqb ct "application/xml"); [by eexists|].
  destruct (String.eqb ct "application/json"); by eexists.
Qed.

Lemma append_id_patterns_differ (path : string) :
  path +:+ ":id" <> path +:+ "/:id".
Proof.
  induction path as [|c path IH]; simpl; [discriminate|].
  intros [= H]. by apply IH.
Qed.

Lemma send_spec code (p : Payload TYPE Body) w :
  send code p w
  = (Fulfilled tt, {| store := store w; calls := calls w;
                      sent := sent w ++ [ {| status := code; payload := p |} ] |}).
Proof. reflexivity. Qed.

(** The update handler when the parser accepts the body: one call of
    [update]; when the promise fulfils the body is converted for the log
    line, and the answer is 204 if that succeeds; in every other case the
    answer is 400. *)
Lemma updateHandler_parsed resource parse req w v :
  parse (body req) = Return v ->
  updateHandler resource (Some parse) req w =
  let '(r, s) := update resource (params_id req) v (store w) in
  let w' := {| store := s; calls := calls w ++ [CallUpdate (params_id req)];
               sent := sent w |} in
  match r, bodyText (body req) with
  | Fulfilled _, Return _ => send 204 Empty w'
  | _, _ => send 400 (invalid resource (body req)) w'
  end.
Proof.
  intros Hparse.
  unfold updateHandler, catch_, then_, parseBody, newPromise, call, invoke.
  rewrite Hparse. simpl.
  destruct (update resource (params_id req) v (store w)) as [[[]|e|e] s]; try reflexivity.
  unfold seq, consoleLog, seq, call. simpl.
  destruct (bodyText (body req)); reflexivity.
Qed.

Lemma updateHandler_parse_error resource parse req w e :
  parse (body req) = Throw e ->
  updateHandler resource (Some parse) req w = send 400 (invalid resource (body req)) w.
Proof.
  intros Hparse.
  unfold updateHandler, catch_, then_, parseBody, newPromise, call.
  by rewrite Hparse.
Qed.

End Generic.
End RouterFacts.

Module RouterClaims.
Import Async Router Data RouterFacts Samples.

Section Generic.
Context {TYPE Store Body : Type} {bodyTextOf : BodyText Body}.
Implicit Types (resource : Resource TYPE Store) (req : Request Body)
  (w : World TYPE Store Body) (parse : Body -> Completion TYPE).

(** C7 (the code departs from the claim): the partial-update route is
    registered at the base path followed by [":id"], with no ["/"] between
    them, while the routes for fetch, full update and delete are at the
    base path followed by ["/:id"]; the [PUT] route of
    [src/main/resource.ts] has the same pattern. *)
Theorem patch_route_pattern resource (parser : option (Body -> Completion TYPE))
    (path : string) :
  patternsOf PATCH (registerResource resource parser [] path) = [path +:+ ":id"] /\
  patternsOf GET (registerResource resource parser [] path) = [path; path +:+ "/:id"] /\
  patternsOf POST (registerResource resource parser [] path) = [path; path +:+ "/:id"] /\
  patternsOf DELETE (registerResource resource parser [] path) = [path +:+ "/:id"] /\
  patternsOf PUT (registerResourceMain resource parser [] path) = [path +:+ ":id"] /\
  "/skills" +:+ ":id" = "/skills:id" /\
  path +:+ ":id" <> path +:+ "/:id".
Proof. repeat split; try reflexivity. apply append_id_patterns_differ. Qed.

(** C8: for a resource with no [adjust] member, the handler of every
    [PATCH] route that [registerResource] binds answers every request with
    status 405, the method-not-allowed outcome, and makes no call on the
    resource: the store and the list of calls are as before. *)
Theorem patch_without_adjust resource (parser : option (Body -> Completion TYPE))
    (path : string) (i : nat) (route : Route TYPE Store Body) req w :
  adjust resource = None ->
  registerResource resource parser [] path !! i = Some route ->
  routeMethod route = PATCH ->
  routeHandler route = patchHandler resource /\
  routeHandler route req w
  = (Fulfilled tt,
     {| store := store w; calls := calls w;
        sent := sent w ++
          [ {| status := 405;
               payload := JsonObject
                 [("message", FString ("The " +:+ name resource +:+ " does not support "
                                       +:+ methodName (method req)));
                  ("resource", FString (name resource))] |} ] |}).
Proof.
  intros Hnone Hroute Hpatch.
  assert (routeHandler route = patchHandler resource) as ->.
  { do 6 (destruct i as [|i]; simpl in Hroute;
          [injection Hroute as <-; simpl in Hpatch; try discriminate; reflexivity|]).
    discriminate. }
  split; [done|].
  unfold patchHandler, isRecordResource. rewrite Hnone. reflexivity.
Qed.

(** C9: both decoders return a rejected promise with a "not implemented"
    error, for every request; so for a resource that has [adjust], a
    partial-update request whose content type is [application/json] or
    [application/xml] is answered with status 400, the bad-request outcome,
    and [adjust] is not called: the store and the list of calls are as
    before. *)
Theorem patch_never_decodes resource req w :
  is_Some (adjust resource) ->
  contentType req = Some "application/json" \/ contentType req = Some "application/xml" ->
  (forall req' w',
     parseJsonResourceChanges (TYPE:=TYPE) req' w'
     = (Rejected (PlainError "The parseJsonResourceChanges not implemented"), w') /\
     parseXmlResourceChanges (TYPE:=TYPE) req' w'
     = (Rejected (PlainError "The parseXmlResourceChanges not implemented"), w')) /\
  patchHandler resource req w
  = (Fulfilled tt,
     {| store := store w; calls := calls w;
        sent := sent w ++
          [ {| status := 400;
               payload := JsonObject [("message", FString "An invalid request.");
                                      ("resource", FString (name resource))] |} ] |}).
Proof.
  intros [f Hf] Hct. split; [done|].
  unfold patchHandler, isRecordResource. rewrite Hf.
  unfold catch_, then_.
  destruct (parseResourceChanges_rejects req resource w) as [e ->].
  reflexivity.
Qed.

End Generic.

(** C6 (the code departs from the claim): on the skills, the full-update
    route asked for the absent key ["3"] lets [update] reject with a
    [RangeError] and answers 400 through the one catch of the handler, where
    the fetch route answers 404 for the same key.  And when [update]
    succeeds for the key ["1"] but the body has a [toString] member, the
    log line throws after the store was changed and the answer is 400
    again, not 204. *)
Theorem update_route_answers_400 :
  Skills_update "3" (Skill "Prudence" None) data = (Rejected RangeError, data) /\
  updateHandler skillsResource (Some skillParser) (request POST "3" None) startWorld
  = (Fulfilled tt,
     {| store := data; calls := [CallUpdate "3"];
        sent := [ {| status := 400;
                     payload := JsonObject [("message", FString "Invalid skill.");
                                            ("resource", FString "skill");
                                            ("value", FBody (ObjectBody "Prudence" None))] |} ] |}) /\
  getHandler skillsResource (request GET "3" None) startWorld
  = (Fulfilled tt,
     {| store := data; calls := [CallGet "3"];
        sent := [ {| status := 404;
                     payload := JsonObject [("message", FString "Not found");
                                            ("resource", FString "skill")] |} ] |}) /\
  updateHandler skillsResource (Some skillParser)
    {| method := POST; params_id := "1"; contentType := None;
       body := ObjectWithToString "Prudence" None |} startWorld
  = (Fulfilled tt,
     {| store := {| skills := [("1", Skill "Prudence" None);
                               ("2", Skill "Communication"
                                       (Some "Communicate with other people"))];
                    drawn := 0 |};
        calls := [CallUpdate "1"];
        sent := [ {| status := 400;
                     payload := JsonObject
                       [("message", FString "Invalid skill.");
                        ("resource", FString "skill");
                        ("value", FBody (ObjectWithToString "Prudence" None))] |} ] |}).
Proof. repeat split; reflexivity. Qed.

Lemma patch_without_adjust_witness :
  patchHandler skillsResource (request PATCH "1" (Some "application/json")) startWorld
  = (Fulfilled tt,
     {| store := data; calls := [];
        sent := [ {| status := 405;
                     payload := JsonObject
                       [("message", FString "The skill does not support PATCH");
                        ("resource", FString "skill")] |} ] |}).
Proof.
  exact (proj2 (patch_without_adjust skillsResource (Some skillParser) "/skills" 4
                  {| routeMethod := PATCH; routePath := "/skills:id";
                     routeHandler := patchHandler skillsResource |}
                  (request PATCH "1" (Some "application/json")) startWorld
                  eq_refl eq_refl eq_refl)).
Defined.

Lemma patch_never_decodes_witness :
  patchHandler recordSkills (request PATCH "1" (Some "application/json")) startWorld
  = (Fulfilled tt,
     {| store := data; calls := [];
        sent := [ {| status := 400;
                     payload := JsonObject [("message", FString "An invalid request.");
                                            ("resource", FString "skill")] |} ] |}).
Proof.
  exact (proj2 (patch_never_decodes recordSkills
                  (request PATCH "1" (Some "application/json")) startWorld
                  (ex_intro _ _ eq_refl) (or_introl eq_refl))).
Defined.

End RouterClaims.

Module AdjustClaims.
Import PathAlgebra Changes Async Adjust Samples.

Section Batch.
Context {V : Type}.
Variable properties : list string.
Variable validValue : gmap string V -> string -> V -> bool.

(** A batch is refused exactly when some descriptor is invalid for the
    value the descriptors before it lead to. *)
Lemma validBatch_false (current : gmap string V) (values : list (ResourceChange V)) :
  validBatch properties validValue current values = false <->
  exists i c, values !! i = Some c /\
              validChange properties validValue (foldl applyChange current (take i values)) c = false.
Proof.
  revert current. induction values as [|d rest IH]; intros current; simpl.
  - split; [done|]. by intros (i & c & Hi & _).
  - rewrite andb_false_iff, IH. split.
    + intros [Hd|(i & c & Hi & Hc)].
      * exists 0, d. by split.
      * exists (S i), c. by split.
    + intros ([|i] & c & Hi & Hc); simpl in *.
      * left. by injection Hi as ->.
      * right. by exists i, c.
Qed.

Lemma validBatch_true (current : gmap string V) (values : list (ResourceChange V)) :
  validBatch properties validValue current values = true <->
  forall i c, values !! i = Some c ->
              validChange properties validValue (foldl applyChange current (take i values)) c = true.
Proof.
  split.
  - intros Hok i c Hi. destruct (validChange properties validValue _ c) eqn:Hc; [done|].
    assert (validBatch properties validValue current values = false) as Hno
      by (apply validBatch_false; eauto).
    congruence.
  - intros Hall. destruct (validBatch properties validValue current values) eqn:Hok; [done|].
    apply validBatch_false in Hok as (i & c & Hi & Hc).
    rewrite (Hall i c Hi) in Hc. done.
Qed.

(** C5: [adjust] is all or nothing.  When the key is absent it fails with
    the not-found condition and the store is as before.  When some
    descriptor of the batch is invalid (its property is not recognized or
    its value not acceptable, for the value the earlier descriptors lead
    to), the batch fails with a syntax condition and the store, so the
    value at the key, is as before.  It succeeds only when every descriptor
    is valid, and then stores the value all descriptors lead to, at that
    key only.  Whatever the outcome other than success, the store is
    unchanged. *)
Theorem adjust_all_or_nothing (key : string) (values : list (ResourceChange V))
    (store : gmap string (gmap string V)) :
  (store !! key = None -> adjust properties validValue key values store = (Rejected RangeError, store)) /\
  (forall current i c,
     store !! key = Some current ->
     values !! i = Some c ->
     validChange properties validValue (foldl applyChange current (take i values)) c = false ->
     exists message, adjust properties validValue key values store = (Rejected (SyntaxError message), store)) /\
  (forall store',
     adjust properties validValue key values store = (Fulfilled tt, store') ->
     exists current,
       store !! key = Some current /\
       (forall i c, values !! i = Some c ->
                    validChange properties validValue (foldl applyChange current (take i values)) c = true) /\
       store' !! key = Some (foldl applyChange current values) /\
       (forall other, other <> key -> store' !! other = store !! other)) /\
  (forall current,
     store !! key = Some current ->
     (forall i c, values !! i = Some c ->
                  validChange properties validValue (foldl applyChange current (take i values)) c = true) ->
     adjust properties validValue key values store
     = (Fulfilled tt, <[key := foldl applyChange current values]> store)) /\
  (forall r store',
     adjust properties validValue key values store = (r, store') -> r <> Fulfilled tt ->
     store' = store /\ store' !! key = store !! key).
Proof.
  unfold adjust. split; [|split; [|split; [|split]]].
  - by intros ->.
  - intros current i c Hkey Hi Hbad. rewrite Hkey.
    assert (validBatch properties validValue current values = false) as -> by (apply validBatch_false; eauto).
    by eexists.
  - intros store'. destruct (store !! key) as [current|] eqn:Hkey; [|done].
    destruct (validBatch properties validValue current values) eqn:Hok; [|done].
    intros [= <-]. exists current. repeat split.
    + by apply validBatch_true.
    + by rewrite lookup_insert_eq.
    + intros other Hne. by rewrite lookup_insert_ne.
  - intros current Hkey Hall. rewrite Hkey.
    by assert (validBatch properties validValue current values = true) as -> by (by apply validBatch_true).
  - intros r store' Hrun Hr.
    assert (store' = store) as ->; [|done].
    destruct (store !! key) as [current|]; [|congruence].
    destruct (validBatch properties validValue current values); congruence.
Qed.

End Batch.

Lemma adjust_all_or_nothing_witness :
  (exists message,
     adjust ["a"; "b"] numericOnly "k" batchAB recordStore
     = (Rejected (SyntaxError message), recordStore)) /\
  adjust ["a"; "b"] numericOnly "missing" batchAB recordStore
  = (Rejected RangeError, recordStore).
Proof.
  destruct (adjust_all_or_nothing ["a"; "b"] numericOnly "k" batchAB recordStore)
    as (_ & Hinvalid & _).
  destruct (adjust_all_or_nothing ["a"; "b"] numericOnly "missing" batchAB recordStore)
    as (Habsent & _).
  split.
  - exact (Hinvalid recordAB 1 (ResourceChanged (ArgString "b") (Text "invalid"))
             eq_refl eq_refl eq_refl).
  - exact (Habsent eq_refl).
Defined.

End AdjustClaims.


(** * Further properties of the path algebra *)

Module PathExtras.
Import PathAlgebra PathFacts Reference Samples.

Lemma isRelativeStep_cases (name : string) :
  isRelativeStep name = true -> name = ".." \/ name = ".".
Proof.
  unfold isRelativeStep. intros H. apply orb_prop in H as [H|H];
    apply String.eqb_eq in H; auto.
Qed.

Lemma plainName_spec (name : string) :
  plainName name = true <->
  String.eqb name "" = false /\ String.eqb name "." = false /\ String.eqb name ".." = false.
Proof.
  unfold plainName, isRelativeStep.
  destruct (String.eqb name ""), (String.eqb name ".."), (String.eqb name ".");
    simpl; intuition congruence.
Qed.

Lemma absoluteSet_walk (p : PathValue) :
  absoluteSet p = isNullish (isAbsolute_walk p).
Proof. induction p as [| |name parent IH [a|] r]; simpl; auto. Qed.

Lemma relativeSet_walk (p : PathValue) :
  relativeSet p = isNullish (isRelative_walk p).
Proof. induction p as [| |name parent IH a [r|]]; simpl; auto. Qed.

Lemma walk_results (p : PathValue) :
  isAbsolute p = (if absoluteSet p then Throw (NullDeref "absolute") else Return false) /\
  isRelative p = (if relativeSet p then Throw (NullDeref "relative") else Return false).
Proof.
  rewrite absoluteSet_walk, relativeSet_walk. unfold isAbsolute, isRelative. split.
  - pose proof (isAbsolute_walk_stops p) as H.
    destruct (isAbsolute_walk p) as [| |n q a r]; simpl; try done. by subst a.
  - pose proof (isRelative_walk_stops p) as H.
    destruct (isRelative_walk p) as [| |n q a r]; simpl; try done. by subst r.
Qed.

(** X1: [isAbsolute] and [isRelative] for every value: a [TypeError] when every
    node of the chain has the member set ([null] and [undefined] included),
    and [false] when some node has not. *)
Theorem isAbsolute_isRelative_table (p : PathValue) :
  isAbsolute p = (if absoluteSet p then Throw (NullDeref "absolute") else Return false) /\
  isRelative p = (if relativeSet p then Throw (NullDeref "relative") else Return false).
Proof. exact (walk_results p). Qed.

Lemma relative_step_parent (name : string) (parent r : PathValue) :
  isRelativeStep name = true ->
  ResourcePath name parent = Return r ->
  r = parent /\ isNullish parent = false /\ absoluteSet parent = false.
Proof.
  intros Hstep. unfold ResourcePath. rewrite Hstep.
  assert (String.eqb name "" = false) as ->.
  { by destruct (isRelativeStep_cases name Hstep) as [-> | ->]. }
  rewrite (proj1 (walk_results parent)).
  destruct (absoluteSet parent) eqn:Hset; simpl; [discriminate|].
  destruct parent as [| |n q a b]; simpl in *; try discriminate.
  by intros [= <-].
Qed.

(** X2: Whenever the factory returns for the name ["."] or [".."], it returns
    the parent it was given, which is a node with an unset [absolute] member
    on its chain; it never makes a node named ["."] or [".."]. *)
Theorem ResourcePath_relative_step_returns_parent (name : string) (parent r : PathValue) :
  isRelativeStep name = true ->
  ResourcePath name parent = Return r ->
  r = parent /\ isNullish parent = false /\ absoluteSet parent = false.
Proof. exact (relative_step_parent name parent r). Qed.

Lemma ResourcePath_relative_step_returns_parent_witness :
  ResourcePath ".." (Node "a" undefined None None) = Return (Node "a" undefined None None) /\
  absoluteSet (Node "a" undefined None None) = false.
Proof.
  pose proof (ResourcePath_relative_step_returns_parent ".." (Node "a" undefined None None)
                (Node "a" undefined None None) eq_refl eq_refl) as (_ & _ & H).
  split; [reflexivity | exact H].
Defined.

(** A name returned inside a node by the factory is the name asked for and
    is a plain one, or the node is the parent given. *)
Lemma ResourcePath_cases (name : string) (parent r : PathValue) :
  ResourcePath name parent = Return r ->
  (plainName name = true /\ r = newNode name parent) \/
  (isRelativeStep name = true /\ r = parent).
Proof.
  intros Hr. destruct (isRelativeStep name) eqn:Hstep.
  - right. split; [done|]. by apply (relative_step_parent name).
  - left. apply ResourcePath_plain_inv in Hr as [Hne ->]; [|done].
    unfold plainName. by rewrite Hne, Hstep.
Qed.

Lemma replaySegment_chainOf (leafFirst : list string) (segment : string) (index : nat) :
  match normalize leafFirst [segment] with
  | Some names => replaySegment (chainOf leafFirst) segment index = Return (chainOf names)
  | None => exists message,
      replaySegment (chainOf leafFirst) segment index = Throw (SyntaxError message)
  end.
Proof.
  unfold replaySegment. simpl.
  destruct (String.eqb segment ".") eqn:Hdot; [done|].
  destruct (String.eqb segment "..") eqn:Hup.
  - destruct leafFirst as [|n outer]; simpl; [by eexists | done].
  - destruct (String.eqb segment "") eqn:Hne; [by eexists|]. simpl.
    rewrite ResourcePath_plain; [done| |done].
    unfold isRelativeStep. by rewrite Hup, Hdot.
Qed.

Lemma normalize_step (leafFirst : list string) (segment : string) (rest : list string) :
  normalize leafFirst (segment :: rest) =
  match normalize leafFirst [segment] with
  | Some names => normalize names rest
  | None => None
  end.
Proof.
  simpl. destruct (String.eqb segment "."); [done|].
  destruct (String.eqb segment "..").
  - by destruct leafFirst.
  - by destruct (String.eqb segment "").
Qed.

Lemma forEach_chainOf (pathResources : list string) (index : nat) (leafFirst : list string) :
  match normalize leafFirst pathResources with
  | Some names => forEach pathResources index (chainOf leafFirst) = Return (chainOf names)
  | None => exists message,
      forEach pathResources index (chainOf leafFirst) = Throw (SyntaxError message)
  end.
Proof.
  revert index leafFirst.
  induction pathResources as [|segment rest IH]; intros index leafFirst; [done|].
  rewrite normalize_step. cbn [forEach].
  pose proof (replaySegment_chainOf leafFirst segment index) as Hstep.
  destruct (normalize leafFirst [segment]) as [names|].
  - rewrite Hstep. apply IH.
  - destruct Hstep as [message ->]. by eexists.
Qed.

Lemma resolve_chain_normalize (current p : PathValue) :
  terminal p = undefined ->
  match normalize [] (segments p) with
  | Some names => resolvePath current (ArgPath p) = Return (chainOf names)
  | None => exists message, resolvePath current (ArgPath p) = Throw (SyntaxError message)
  end.
Proof.
  intros Hp. rewrite resolvePath_chain, Hp. simpl.
  apply (forEach_chainOf (segments p) 0 []).
Qed.

(** X3: Resolving a chain that ends in [undefined] replays its segment names,
    root first, on an empty cursor: when the replay of the names succeeds
    the result is the relative chain of the names left, each node as the
    factory makes it; when it fails (a [".."] with nothing to drop, or an
    empty name) the call fails with a syntax error. *)
Theorem resolvePath_relative_normalizes (current p : PathValue) :
  terminal p = undefined ->
  match normalize [] (segments p) with
  | Some names => resolvePath current (ArgPath p) = Return (chainOf names)
  | None => exists message, resolvePath current (ArgPath p) = Throw (SyntaxError message)
  end.
Proof. exact (resolve_chain_normalize current p). Qed.

Lemma resolvePath_relative_normalizes_witness :
  resolvePath basePath
    (ArgPath (Node "z" (Node ".." (Node "y" relativeX None None) None None) None None))
  = Return (chainOf ["z"; "x"]) /\
  exists message,
    resolvePath basePath (ArgPath (Node ".." (Node ".." relativeX None None) None None))
    = Throw (SyntaxError message).
Proof.
  split.
  - exact (resolvePath_relative_normalizes basePath
             (Node "z" (Node ".." (Node "y" relativeX None None) None None) None None)
             eq_refl).
  - exact (resolvePath_relative_normalizes basePath
             (Node ".." (Node ".." relativeX None None) None None) eq_refl).
Defined.

Lemma normalize_plain (leafFirst pathResources names : list string) :
  forallb plainName leafFirst = true ->
  normalize leafFirst pathResources = Some names ->
  forallb plainName names = true.
Proof.
  revert leafFirst. induction pathResources as [|segment rest IH]; intros leafFirst Hst; simpl.
  - by intros [= <-].
  - destruct (String.eqb segment ".") eqn:Hdot; [by apply IH|].
    destruct (String.eqb segment "..") eqn:Hup.
    + destruct leafFirst as [|n outer]; [done|]. apply IH.
      simpl in Hst. by apply andb_prop in Hst as [_ ?].
    + destruct (String.eqb segment "") eqn:Hne; [done|]. apply IH. simpl.
      rewrite Hst, andb_true_r. apply plainName_spec. done.
Qed.

Lemma normalize_plain_names (leafFirst pathResources : list string) :
  forallb plainName pathResources = true ->
  normalize leafFirst pathResources = Some (rev pathResources ++ leafFirst).
Proof.
  revert leafFirst. induction pathResources as [|segment rest IH]; intros leafFirst; [done|].
  simpl. intros H. apply andb_prop in H as [Hseg Hrest].
  apply plainName_spec in Hseg as (Hne & Hdot & Hup). rewrite Hdot, Hup, Hne.
  rewrite (IH _ Hrest). by rewrite <- app_assoc.
Qed.

Lemma chainOf_terminal (names : list string) : terminal (chainOf names) = undefined.
Proof. induction names as [|n outer IH]; simpl; done. Qed.

Lemma chainOf_segments (names : list string) : segments (chainOf names) = rev names.
Proof. induction names as [|n outer IH]; simpl; [done|]. by rewrite IH. Qed.

Lemma chainOf_invariant (names : list string) :
  forallb plainName names = true -> pathInvariant (chainOf names) = true.
Proof.
  induction names as [|n outer IH]; [done|]. simpl. intros H.
  apply andb_prop in H as [Hn Houter].
  apply newNode_invariant; [|by apply IH].
  by apply plainName_spec in Hn as (? & _).
Qed.

Lemma forallb_rev {A} (f : A -> bool) (l : list A) : forallb f (rev l) = forallb f l.
Proof.
  induction l as [|x l IH]; [done|]. simpl.
  rewrite forallb_app, IH. simpl. by rewrite andb_true_r, andb_comm.
Qed.

Lemma resolve_string_cases (current : PathValue) (s : string) :
  resolvePath current (ArgString s) =
  if String.eqb s "" then Throw (SyntaxError "An empty path segment is not allowed")
  else if isRelativeStep s then Throw (NullDeref "absolute")
  else Return (Node s undefined (Some false) (Some true)).
Proof.
  destruct (String.eqb s "") eqn:Hne.
  - unfold resolvePath, ResourcePath. by rewrite Hne.
  - destruct (isRelativeStep s) eqn:Hstep.
    + unfold resolvePath, ResourcePath. by rewrite Hne, Hstep.
    + unfold resolvePath. rewrite (ResourcePath_plain s undefined Hstep Hne). simpl.
      unfold replaySegment.
      assert (plainName s = true) as Hplain by (unfold plainName; by rewrite Hne, Hstep).
      apply plainName_spec in Hplain as (_ & Hdot & Hup).
      rewrite Hdot, Hup, Hne. simpl.
      by rewrite (ResourcePath_plain s undefined Hstep Hne).
Qed.

(** X6: A string argument, for every string and every base: the empty string
    is a syntax error, ["."] and [".."] end in the [TypeError] of
    [isAbsolute(undefined)], and any other string, separators included,
    becomes the name of a single relative node. *)
Theorem resolvePath_string_table (current : PathValue) (s : string) :
  resolvePath current (ArgString s) =
  if String.eqb s "" then Throw (SyntaxError "An empty path segment is not allowed")
  else if isRelativeStep s then Throw (NullDeref "absolute")
  else Return (Node s undefined (Some false) (Some true)).
Proof. exact (resolve_string_cases current s). Qed.

Lemma resolvePath_string_as_chain (current : PathValue) (s : string) (r : PathValue) :
  resolvePath current (ArgString s) = Return r ->
  plainName s = true /\ r = chainOf [s].
Proof.
  rewrite resolve_string_cases. unfold plainName.
  destruct (String.eqb s ""); [discriminate|].
  destruct (isRelativeStep s); [discriminate|].
  by intros [= <-].
Qed.

Lemma resolvePath_relative_chainOf (current : PathValue) (path : PathArg) (r : PathValue) :
  relativeArg path = true ->
  resolvePath current path = Return r ->
  exists names, forallb plainName names = true /\ r = chainOf names.
Proof.
  assert (forall p, terminal p = undefined -> resolvePath current (ArgPath p) = Return r ->
            exists names, forallb plainName names = true /\ r = chainOf names) as Hchain.
  { intros p Hp Hr. pose proof (resolve_chain_normalize current p Hp) as H.
    destruct (normalize [] (segments p)) as [names|] eqn:Hn.
    - exists names. split; [by apply (normalize_plain [] (segments p))|congruence].
    - destruct H as [message H]. congruence. }
  destruct path as [s|p]; simpl.
  - intros _ Hr. destruct (resolvePath_string_as_chain current s r Hr) as [Hplain ->].
    exists [s]. split; [|done]. simpl. by rewrite Hplain.
  - intros Hp Hr. apply (Hchain p); [|done]. by destruct (terminal p).
Qed.

(** X4: Whatever [resolvePath] returns for a string or for a chain that ends in
    [undefined] is a relative path in normal form: its chain ends in
    [undefined], no segment is empty, ["."] or [".."], and every node
    satisfies the invariant of factory-built nodes. *)
Theorem resolvePath_relative_result (current : PathValue) (path : PathArg) (r : PathValue) :
  relativeArg path = true ->
  resolvePath current path = Return r ->
  terminal r = undefined /\
  forallb plainName (segments r) = true /\
  pathInvariant r = true.
Proof.
  intros Hrel Hr.
  destruct (resolvePath_relative_chainOf current path r Hrel Hr) as (names & Hplain & ->).
  split; [apply chainOf_terminal|]. split; [|by apply chainOf_invariant].
  by rewrite chainOf_segments, forallb_rev.
Qed.

Lemma resolvePath_relative_result_witness :
  terminal (chainOf ["z"; "x"]) = undefined /\
  forallb plainName (segments (chainOf ["z"; "x"])) = true /\
  pathInvariant (chainOf ["z"; "x"]) = true.
Proof.
  exact (resolvePath_relative_result basePath
           (ArgPath (Node "z" (Node ".." (Node "y" relativeX None None) None None) None None))
           (chainOf ["z"; "x"]) eq_refl eq_refl).
Defined.

(** X5: Resolving is idempotent on relative arguments: a path that
    [resolvePath] returned for a string or for a chain ending in
    [undefined] resolves to itself, against every base. *)
Theorem resolvePath_idempotent (current other : PathValue) (path : PathArg) (r : PathValue) :
  relativeArg path = true ->
  resolvePath current path = Return r ->
  resolvePath other (ArgPath r) = Return r.
Proof.
  intros Hrel Hr.
  destruct (resolvePath_relative_chainOf current path r Hrel Hr) as (names & Hplain & ->).
  pose proof (resolve_chain_normalize other (chainOf names) (chainOf_terminal names))
    as H.
  rewrite chainOf_segments, normalize_plain_names in H by (by rewrite forallb_rev).
  by rewrite rev_involutive, app_nil_r in H.
Qed.

Lemma resolvePath_idempotent_witness :
  resolvePath absoluteA (ArgPath (chainOf ["z"; "x"])) = Return (chainOf ["z"; "x"]).
Proof.
  exact (resolvePath_idempotent basePath absoluteA
           (ArgPath (Node "z" (Node ".." (Node "y" relativeX None None) None None) None None))
           (chainOf ["z"; "x"]) eq_refl eq_refl).
Defined.

Lemma plain_no_relative_step (names : list string) :
  forallb plainName names = true -> existsb isRelativeStep names = false.
Proof.
  induction names as [|n rest IH]; [done|]. simpl.
  intros [Hn Hrest]%andb_prop. rewrite (IH Hrest), orb_false_r.
  unfold plainName in Hn. apply andb_prop in Hn as [_ Hn]. by destruct (isRelativeStep n).
Qed.

Lemma factoryBuilt_names (p : PathValue) :
  factoryBuilt p ->
  forallb plainName (segments p) = true /\
  (terminal p = undefined -> p = chainOf (rev (segments p))).
Proof.
  induction 1 as [name parent p Hnull Hstep Hmk | name parent p Hb [IHplain IHchain] Hstep Hmk];
    apply ResourcePath_plain_inv in Hmk as [Hne ->]; try done.
  - assert (plainName name = true) as Hplain by (unfold plainName; by rewrite Hne, Hstep).
    destruct parent as [| |n q a r]; try done; simpl; rewrite Hplain; done.
  - assert (plainName name = true) as Hplain by (unfold plainName; by rewrite Hne, Hstep).
    assert (segments (newNode name parent) = segments parent ++ [name]) as -> by done.
    rewrite forallb_app, IHplain. simpl. rewrite Hplain. split; [done|].
    intros Hp. change (terminal parent = undefined) in Hp.
    rewrite rev_unit. simpl. by rewrite <- (IHchain Hp).
Qed.

(** X7: Resolving a path the factory built from names other than ["."] and
    [".."] returns a path equal to it, whether it is absolute or relative
    and whatever the base is. *)
Theorem resolvePath_factory_built (current p : PathValue) :
  factoryBuilt p -> resolvePath current (ArgPath p) = Return p.
Proof.
  intros Hb. destruct (factoryBuilt_names p Hb) as [Hplain Hchain].
  pose proof (terminal_nullish p) as Hnull.
  destruct (terminal p) eqn:Hp; [| |done].
  - rewrite resolvePath_chain, Hp. simpl. by rewrite plain_no_relative_step.
  - pose proof (resolve_chain_normalize current p Hp) as H.
    rewrite normalize_plain_names, app_nil_r in H by done.
    by rewrite <- (Hchain eq_refl) in H.
Qed.

Lemma resolvePath_factory_built_witness :
  resolvePath relativeX (ArgPath absoluteAB) = Return absoluteAB /\
  resolvePath absoluteAB (ArgPath relativeX) = Return relativeX.
Proof.
  split.
  - apply (resolvePath_factory_built relativeX absoluteAB).
    apply (built_child "b" absoluteA); [|reflexivity|reflexivity].
    by apply (built_first "a" null).
  - apply (resolvePath_factory_built absoluteAB relativeX).
    by apply (built_first "x" undefined).
Defined.

End PathExtras.

(** * Further properties of the sample store *)

Module DataExtras.
Import Async Router Data Reference Samples.

Section JsMapFacts.
Context {V : Type}.
Implicit Types (m : list (string * V)) (k key : string) (v : V).

Lemma mapHas_keys key m : mapHas key m = true <-> key ∈ mapKeys m.
Proof.
  unfold mapHas, mapKeys. induction m as [|[k v] rest IH]; simpl.
  - split; [done|]. by intros ?%elem_of_nil.
  - rewrite elem_of_cons. destruct (String.eqb_spec k key) as [->|Hne].
    + split; auto.
    + rewrite IH. split; [auto|]. by intros [?|?].
Qed.

Lemma mapHas_false_keys key m : mapHas key m = false <-> key ∉ mapKeys m.
Proof.
  rewrite <- mapHas_keys. destruct (mapHas key m); naive_solver.
Qed.

Lemma mapGet_mapSet key k v m :
  mapGet k (mapSet key v m) = if String.eqb key k then Some v else mapGet k m.
Proof.
  induction m as [|[k0 v0] rest IH]; simpl.
  - done.
  - destruct (String.eqb_spec k0 key) as [->|Hne]; simpl.
    + by destruct (String.eqb key k).
    + rewrite IH. destruct (String.eqb_spec k0 k) as [->|Hne'].
      * by destruct (String.eqb_spec key k) as [->|?].
      * done.
Qed.

Lemma mapSet_absent key v m :
  mapHas key m = false -> mapSet key v m = m ++ [(key, v)].
Proof.
  unfold mapHas. induction m as [|[k0 v0] rest IH]; simpl; [done|].
  destruct (String.eqb k0 key); [done|]. intros H. by rewrite IH.
Qed.

Lemma mapKeys_mapSet key v m :
  mapKeys (mapSet key v m) = if mapHas key m then mapKeys m else mapKeys m ++ [key].
Proof.
  unfold mapHas, mapKeys. induction m as [|[k0 v0] rest IH]; [done|].
  cbn [mapSet mapGet]. destruct (String.eqb k0 key); [done|].
  rewrite !fmap_cons, IH. by destruct (mapGet key rest).
Qed.

Lemma mapSet_NoDup key v m : NoDup (mapKeys m) -> NoDup (mapKeys (mapSet key v m)).
Proof.
  intros Hnd. rewrite mapKeys_mapSet. destruct (mapHas key m) eqn:Hhas; [done|].
  apply NoDup_app. split; [done|]. split; [|apply NoDup_singleton].
  intros x Hx ->%list_elem_of_singleton. by apply mapHas_false_keys in Hhas.
Qed.

Lemma mapDelete_found key m : (mapDelete key m).1 = mapHas key m.
Proof.
  unfold mapHas. induction m as [|[k0 v0] rest IH]; simpl; [done|].
  destruct (String.eqb k0 key); [done|].
  destruct (mapDelete key rest) as [found rest']. simpl in *. by rewrite IH.
Qed.

Lemma mapDelete_other key k m :
  k <> key -> mapGet k (mapDelete key m).2 = mapGet k m.
Proof.
  intros Hne. induction m as [|[k0 v0] rest IH]; simpl; [done|].
  destruct (String.eqb_spec k0 key) as [->|Hne0]; simpl.
  - by destruct (String.eqb_spec key k) as [->|?].
  - destruct (mapDelete key rest) as [found rest']. simpl in *. by rewrite IH.
Qed.

Lemma mapDelete_keys key m : mapKeys (mapDelete key m).2 ⊆ mapKeys m.
Proof.
  unfold mapKeys. induction m as [|[k0 v0] rest IH]; simpl; [done|].
  destruct (String.eqb k0 key); simpl.
  - intros x Hx. by apply elem_of_cons; right.
  - destruct (mapDelete key rest) as [found rest']. simpl in *.
    intros x [->|Hx]%elem_of_cons; apply elem_of_cons; auto.
Qed.

Lemma mapDelete_NoDup key m :
  NoDup (mapKeys m) ->
  NoDup (mapKeys (mapDelete key m).2) /\ mapHas key (mapDelete key m).2 = false.
Proof.
  unfold mapKeys. induction m as [|[k0 v0] rest IH]; simpl.
  - done.
  - intros [Hk0 Hrest]%NoDup_cons. destruct (String.eqb_spec k0 key) as [->|Hne]; simpl.
    + split; [done|]. by apply mapHas_false_keys.
    + destruct (IH Hrest) as [Hnd Hgone].
      pose proof (mapDelete_keys key rest) as Hsub. unfold mapKeys in Hsub.
      destruct (mapDelete key rest) as [found rest']. simpl in *. split.
      * apply NoDup_cons. split; [|done]. intros Hin. by apply Hk0, Hsub.
      * unfold mapHas in *. simpl. by destruct (String.eqb_spec k0 key).
Qed.
End JsMapFacts.

Lemma data_keys_distinct : NoDup (mapKeys (skills data)).
Proof. exact (bool_decide_unpack (NoDup (mapKeys (skills data))) I). Defined.

Section SkillsFacts.
Variable randomUUID : nat -> string.
Implicit Types (d : DataStore) (key : string) (value : SkillValue).

(** X8: On a key the store does not hold, [get], [update] and [delete] of
    [Skills] reject with a [RangeError] and leave the store as it was. *)
Theorem Skills_missing_key d key value :
  mapHas key (skills d) = false ->
  Skills_get key d = (Rejected RangeError, d) /\
  Skills_update key value d = (Rejected RangeError, d) /\
  Skills_delete key d = (Rejected RangeError, d).
Proof.
  intros Hno. unfold Skills_get, Skills_update, Skills_delete, newPromise. rewrite Hno.
  unfold mapHas in Hno. by destruct (mapGet key (skills d)).
Qed.

(** X9: [update] on a key the store holds fulfils; afterwards [get] of that key
    fulfils with the new value, [get] of every other key ends as before,
    and the keys, their order and the identifier count are unchanged. *)
Theorem Skills_update_then_get d key value :
  mapHas key (skills d) = true ->
  exists d',
    Skills_update key value d = (Fulfilled tt, d') /\
    Skills_get key d' = (Fulfilled value, d') /\
    (forall other, other <> key -> (Skills_get other d').1 = (Skills_get other d).1) /\
    mapKeys (skills d') = mapKeys (skills d) /\
    drawn d' = drawn d.
Proof.
  intros Hhas. eexists. unfold Skills_update, newPromise. rewrite Hhas. simpl.
  split; [reflexivity|]. unfold Skills_get, newPromise. simpl. repeat split.
  - by rewrite mapGet_mapSet, String.eqb_refl.
  - intros other Hne. rewrite mapGet_mapSet.
    destruct (String.eqb_spec key other) as [->|_]; [done|].
    by destruct (mapGet other (skills d)).
  - by rewrite mapKeys_mapSet, Hhas.
Qed.

(** X10: [create] always fulfils, with the identifier [randomUUID] returned;
    afterwards [get] of that identifier fulfils with the value created, and
    [get] of every other key ends as before.  When the identifier is new the
    entry is added after the entries there were; when the store already
    holds it, the entry under it is overwritten in place. *)
Theorem Skills_create_then_get d value :
  exists d',
    Skills_create randomUUID value d = (Fulfilled (randomUUID (drawn d)), d') /\
    Skills_get (randomUUID (drawn d)) d' = (Fulfilled value, d') /\
    (forall other, other <> randomUUID (drawn d) ->
       (Skills_get other d').1 = (Skills_get other d).1) /\
    drawn d' = S (drawn d) /\
    (if mapHas (randomUUID (drawn d)) (skills d)
     then mapKeys (skills d') = mapKeys (skills d)
     else skills d' = skills d ++ [(randomUUID (drawn d), value)]).
Proof.
  eexists. unfold Skills_create, newPromise. simpl. split; [reflexivity|].
  unfold Skills_get, newPromise. simpl. repeat split.
  - by rewrite mapGet_mapSet, String.eqb_refl.
  - intros other Hne. rewrite mapGet_mapSet.
    destruct (String.eqb_spec (randomUUID (drawn d)) other) as [<-|_]; [done|].
    by destruct (mapGet other (skills d)).
  - destruct (mapHas (randomUUID (drawn d)) (skills d)) eqn:Hhas.
    + by rewrite mapKeys_mapSet, Hhas.
    + by apply mapSet_absent.
Qed.

(** X11: With distinct keys in the store, [delete] of a key it holds fulfils
    with [true]; afterwards [get] of that key rejects with a [RangeError]
    and [get] of every other key ends as before. *)
Theorem Skills_delete_then_get d key :
  NoDup (mapKeys (skills d)) ->
  mapHas key (skills d) = true ->
  exists d',
    Skills_delete key d = (Fulfilled true, d') /\
    Skills_get key d' = (Rejected RangeError, d') /\
    (forall other, other <> key -> (Skills_get other d').1 = (Skills_get other d).1) /\
    drawn d' = drawn d.
Proof.
  intros Hnd Hhas. unfold Skills_delete, newPromise. rewrite Hhas.
  pose proof (mapDelete_found key (skills d)) as Hfound.
  pose proof (mapDelete_NoDup key (skills d) Hnd) as [_ Hgone].
  pose proof (fun other => mapDelete_other key other (skills d)) as Hother.
  destruct (mapDelete key (skills d)) as [found rest]. simpl in *.
  rewrite Hfound, Hhas. eexists. split; [reflexivity|].
  unfold Skills_get, newPromise. simpl. repeat split.
  - unfold mapHas in Hgone. by destruct (mapGet key rest).
  - intros other Hne. rewrite (Hother other Hne).
    by destruct (mapGet other (skills d)).
Qed.

(** X12: The keys of the store stay distinct: they are in the initial [data],
    and [update], [delete] and [create] keep them so, whatever their
    arguments and whatever identifier [randomUUID] returns. *)
Theorem Skills_keys_distinct d key value :
  NoDup (mapKeys (skills d)) ->
  NoDup (mapKeys (skills data)) /\
  NoDup (mapKeys (skills (Skills_update key value d).2)) /\
  NoDup (mapKeys (skills (Skills_delete key d).2)) /\
  NoDup (mapKeys (skills (Skills_create randomUUID value d).2)).
Proof.
  intros Hnd. split; [|split; [|split]].
  - exact data_keys_distinct.
  - unfold Skills_update, newPromise. destruct (mapHas key (skills d)); simpl; [|done].
    by apply mapSet_NoDup.
  - unfold Skills_delete, newPromise. destruct (mapHas key (skills d)); simpl; [|done].
    pose proof (mapDelete_NoDup key (skills d) Hnd) as [H _].
    by destruct (mapDelete key (skills d)).
  - unfold Skills_create, newPromise. simpl. by apply mapSet_NoDup.
Qed.
End SkillsFacts.

Lemma Skills_missing_key_witness :
  Skills_get "3" data = (Rejected RangeError, data) /\
  Skills_update "3" (Skill "Prudence" None) data = (Rejected RangeError, data) /\
  Skills_delete "3" data = (Rejected RangeError, data).
Proof. exact (Skills_missing_key data "3" (Skill "Prudence" None) eq_refl). Defined.

Lemma Skills_update_then_get_witness :
  exists d',
    Skills_update "2" (Skill "Prudence" None) data = (Fulfilled tt, d') /\
    Skills_get "2" d' = (Fulfilled (Skill "Prudence" None), d') /\
    (forall other, other <> "2" -> (Skills_get other d').1 = (Skills_get other data).1) /\
    mapKeys (skills d') = mapKeys (skills data) /\
    drawn d' = drawn data.
Proof. exact (Skills_update_then_get data "2" (Skill "Prudence" None) eq_refl). Defined.

Lemma Skills_delete_then_get_witness :
  exists d',
    Skills_delete "1" data = (Fulfilled true, d') /\
    Skills_get "1" d' = (Rejected RangeError, d') /\
    (forall other, other <> "1" -> (Skills_get other d').1 = (Skills_get other data).1) /\
    drawn d' = drawn data.
Proof. exact (Skills_delete_then_get data "1" data_keys_distinct eq_refl). Defined.

Lemma Skills_keys_distinct_witness :
  NoDup (mapKeys (skills (Skills_create uuids (Skill "Prudence" None) data).2)).
Proof.
  exact (proj2 (proj2 (proj2 (Skills_keys_distinct uuids data "1" (Skill "Prudence" None)
                                data_keys_distinct)))).
Defined.

End DataExtras.

(** * Further properties of the router *)

Module RouterExtras.
Import Async Router Data Reference Samples RouterFacts DataExtras.

Section Generic.
Context {TYPE Store Body : Type} {bodyTextOf : BodyText Body}.
Implicit Types (resource : Resource TYPE Store) (req : Request Body)
  (w : World TYPE Store Body) (parser : option (Body -> Completion TYPE)).

(** The world after a recorded call that left the store [s]. *)
Lemma invoke_spec {A} (c : StoreCall) (op : Store -> Outcome A * Store) w :
  invoke (TYPE:=TYPE) (Body:=Body) c op w
  = ((op (store w)).1,
     {| store := (op (store w)).2; calls := calls w ++ [c]; sent := sent w |}).
Proof. unfold invoke. by destruct (op (store w)). Qed.

Lemma listHandler_cases resource req w :
  listHandler resource req w =
  let w' := {| store := (getAll resource (store w)).2;
               calls := calls w ++ [CallGetAll]; sent := sent w |} in
  match (getAll resource (store w)).1 with
  | Fulfilled entries => send 200 (JsonEntries entries) w'
  | Rejected _ => send 500 (unavailable resource "resource") w'
  | Thrown _ => send 500 (unavailable resource "resuorce") w'
  end.
Proof.
  unfold listHandler, tryCatch, then2. rewrite invoke_spec.
  by destruct (getAll resource (store w)) as [[entries|e|e] s].
Qed.

Lemma getHandler_cases resource req w :
  getHandler resource req w =
  let w' := {| store := (get resource (params_id req) (store w)).2;
               calls := calls w ++ [CallGet (params_id req)]; sent := sent w |} in
  match (get resource (params_id req) (store w)).1 with
  | Fulfilled value => send 200 (JsonValue value) w'
  | Rejected _ => send 404 (notFound resource) w'
  | Thrown _ => send 500 (unavailable resource "resource") w'
  end.
Proof.
  unfold getHandler, tryCatch, then2. rewrite invoke_spec.
  by destruct (get resource (params_id req) (store w)) as [[value|e|e] s].
Qed.

Lemma deleteHandler_cases resource req w :
  deleteHandler resource req w =
  let w' := {| store := (delete resource (params_id req) (store w)).2;
               calls := calls w ++ [CallDelete (params_id req)]; sent := sent w |} in
  match (delete resource (params_id req) (store w)).1 with
  | Fulfilled found => send 200 (JsonBool found) w'
  | Rejected _ => send 404 (notFound resource) w'
  | Thrown _ => send 500 (unavailable resource "resuorce") w'
  end.
Proof.
  unfold deleteHandler, tryCatch, then2. rewrite invoke_spec.
  by destruct (delete resource (params_id req) (store w)) as [[found|e|e] s].
Qed.

Lemma createHandler_cases resource parser req w :
  createHandler resource parser req w =
  match parser with
  | None => send 405 (unsupported resource) w
  | Some parse =>
      match parse (body req) with
      | Throw _ => send 400 (invalid resource (body req)) w
      | Return value =>
          let w' := {| store := (create resource value (store w)).2;
                       calls := calls w ++ [CallCreate]; sent := sent w |} in
          match (create resource value (store w)).1, bodyText (body req) with
          | Fulfilled id, Return _ => send 201 (JsonKey id) w'
          | _, _ => send 400 (invalid resource (body req)) w'
          end
      end
  end.
Proof.
  unfold createHandler. destruct parser as [parse|]; [|done].
  unfold catch_, then_, parseBody, newPromise, call.
  destruct (parse (body req)) as [value|e]; [|done]. simpl. rewrite invoke_spec.
  destruct (create resource value (store w)) as [[id|e|e] s]; try done.
  unfold seq, consoleLog, seq, call. simpl. by destruct (bodyText (body req)).
Qed.

Lemma updateHandler_cases resource parser req w :
  updateHandler resource parser req w =
  match parser with
  | None => send 405 (unsupported resource) w
  | Some parse =>
      match parse (body req) with
      | Throw _ => send 400 (invalid resource (body req)) w
      | Return value =>
          let w' := {| store := (update resource (params_id req) value (store w)).2;
                       calls := calls w ++ [CallUpdate (params_id req)]; sent := sent w |} in
          match (update resource (params_id req) value (store w)).1, bodyText (body req) with
          | Fulfilled _, Return _ => send 204 Empty w'
          | _, _ => send 400 (invalid resource (body req)) w'
          end
      end
  end.
Proof.
  unfold updateHandler. destruct parser as [parse|]; [|done].
  unfold catch_, then_, parseBody, newPromise, call.
  destruct (parse (body req)) as [value|e]; [|done]. simpl. rewrite invoke_spec.
  destruct (update resource (params_id req) value (store w)) as [[[]|e|e] s]; try done.
  unfold seq, consoleLog, seq, call. simpl. by destruct (bodyText (body req)).
Qed.

Lemma patchHandler_cases resource req w :
  patchHandler resource req w =
  match adjust resource with
  | None => sendUnsupportedResourceMessage req (name resource) (methodName (method req)) w
  | Some _ => sendInvalidResourceRequestMessage req (name resource) (methodName (method req)) w
  end.
Proof.
  unfold patchHandler, isRecordResource. destruct (adjust resource) as [f|] eqn:Hf; [|done].
  unfold catch_, then_.
  by destruct (parseResourceChanges_rejects req resource w) as [e ->].
Qed.

(** X13: The routes that read no body.  Each makes exactly one call on the
    resource.  Listing answers 200 with the entries when [getAll] fulfils
    and 500 otherwise.  Fetching and deleting by key answer 200 with the
    value (the boolean) when the promise fulfils, 404 when it rejects,
    whatever the error, and 500 when the call itself throws. *)
Theorem bodiless_routes_outcomes resource req w :
  listHandler resource req w =
    (let w' := {| store := (getAll resource (store w)).2;
                  calls := calls w ++ [CallGetAll]; sent := sent w |} in
     match (getAll resource (store w)).1 with
     | Fulfilled entries => send 200 (JsonEntries entries) w'
     | Rejected _ => send 500 (unavailable resource "resource") w'
     | Thrown _ => send 500 (unavailable resource "resuorce") w'
     end) /\
  getHandler resource req w =
    (let w' := {| store := (get resource (params_id req) (store w)).2;
                  calls := calls w ++ [CallGet (params_id req)]; sent := sent w |} in
     match (get resource (params_id req) (store w)).1 with
     | Fulfilled value => send 200 (JsonValue value) w'
     | Rejected _ => send 404 (notFound resource) w'
     | Thrown _ => send 500 (unavailable resource "resource") w'
     end) /\
  deleteHandler resource req w =
    (let w' := {| store := (delete resource (params_id req) (store w)).2;
                  calls := calls w ++ [CallDelete (params_id req)]; sent := sent w |} in
     match (delete resource (params_id req) (store w)).1 with
     | Fulfilled found => send 200 (JsonBool found) w'
     | Rejected _ => send 404 (notFound resource) w'
     | Thrown _ => send 500 (unavailable resource "resuorce") w'
     end).
Proof.
  split; [apply listHandler_cases|]. split; [apply getHandler_cases|].
  apply deleteHandler_cases.
Qed.

(** X14: The create route.  Without a parser it answers 405; when the parser
    throws it answers 400; in both cases no call is made on the resource.
    Otherwise it calls [create] once; it answers 201 with the key when the
    promise fulfils and the body can be converted to a string for the log
    line, and 400 with the body in every other case, also when the entry
    was created and only the conversion threw. *)
Theorem create_route_outcomes resource parser req w :
  createHandler resource parser req w =
  match parser with
  | None => send 405 (unsupported resource) w
  | Some parse =>
      match parse (body req) with
      | Throw _ => send 400 (invalid resource (body req)) w
      | Return value =>
          let w' := {| store := (create resource value (store w)).2;
                       calls := calls w ++ [CallCreate]; sent := sent w |} in
          match (create resource value (store w)).1, bodyText (body req) with
          | Fulfilled id, Return _ => send 201 (JsonKey id) w'
          | _, _ => send 400 (invalid resource (body req)) w'
          end
      end
  end.
Proof. apply createHandler_cases. Qed.

(** X23: The full-update route.  Without a parser it answers 405; when the
    parser throws it answers 400; in both cases no call is made on the
    resource.  Otherwise it calls [update] once; it answers 204 when the
    promise fulfils and the body can be converted to a string for the log
    line, and 400 with the body in every other case, also when the value
    was stored and only the conversion threw. *)
Theorem update_route_table resource parser req w :
  updateHandler resource parser req w =
  match parser with
  | None => send 405 (unsupported resource) w
  | Some parse =>
      match parse (body req) with
      | Throw _ => send 400 (invalid resource (body req)) w
      | Return value =>
          let w' := {| store := (update resource (params_id req) value (store w)).2;
                       calls := calls w ++ [CallUpdate (params_id req)]; sent := sent w |} in
          match (update resource (params_id req) value (store w)).1, bodyText (body req) with
          | Fulfilled _, Return _ => send 204 Empty w'
          | _, _ => send 400 (invalid resource (body req)) w'
          end
      end
  end.
Proof. apply updateHandler_cases. Qed.

(** X15: The full-update route makes no call on the resource and leaves the
    store alone when no parser is configured (the answer is 405) and when
    the parser throws on the body (the answer is 400). *)
Theorem update_refused_before_store resource parser req w :
  match parser with
  | Some parse => exists e, parse (body req) = Throw e
  | None => True
  end ->
  updateHandler resource parser req w
  = (Fulfilled tt,
     {| store := store w; calls := calls w;
        sent := sent w ++
          [ match parser with
            | Some _ => {| status := 400; payload := invalid resource (body req) |}
            | None => {| status := 405; payload := unsupported resource |}
            end ] |}).
Proof.
  intros Hparser. rewrite updateHandler_cases. destruct parser as [parse|]; [|done].
  destruct Hparser as [e ->]. done.
Qed.

(** X16: The partial-update route never reaches the store: for every resource,
    with or without [adjust], and every request, whatever its content type,
    the handler makes no call on the resource and sends one response, 405
    when the resource has no [adjust] and 400 when it has. *)
Theorem patch_never_reaches_store resource req w :
  exists response,
    patchHandler resource req w
    = (Fulfilled tt,
       {| store := store w; calls := calls w; sent := sent w ++ [response] |}) /\
    status response = (match adjust resource with Some _ => 400 | None => 405 end).
Proof.
  rewrite patchHandler_cases. destruct (adjust resource); eexists; split; reflexivity.
Qed.

(** X17: Decoding a change list never fulfils.  [parseResourceChanges] of
    [resource.ts] rejects for every request and resource, without a call on
    the resource: with an error naming the operation when the resource has
    no [adjust], with the decoder's "not implemented" error for the two
    known content types, and with a [TypeError] naming the content type
    otherwise.  [parseResourceChanges] of [resourcepath.ts] rejects for
    every content type. *)
Theorem change_decoding_never_fulfils resource req (ct : string) w :
  parseResourceChanges req resource w
  = (Rejected
       (match adjust resource, contentType req with
        | None, _ => PlainError ("Unsupported patch for " +:+ name resource)
        | Some _, Some t =>
            if String.eqb t "application/xml"
            then PlainError "The parseXmlResourceChanges not implemented"
            else if String.eqb t "application/json"
            then PlainError "The parseJsonResourceChanges not implemented"
            else TypeError ("Unsupported content type " +:+ t)
        | Some _, None => TypeError "Unsupported content type undefined"
        end), w) /\
  parseResourceChangesOfType (TYPE:=TYPE) req ct w
  = (Rejected
       (if String.eqb ct "application/json"
        then PlainError "The parseJsonResourceChanges not implemented"
        else if String.eqb ct "application/xml"
        then PlainError "The parseXmlResourceChanges not implemented"
        else RejectedUndefined), w).
Proof.
  split.
  - unfold parseResourceChanges, newPromise, isRecordResource.
    destruct (adjust resource); [|done].
    unfold createUnsupportedBodyError.
    destruct (contentType req) as [t|]; [|done]. simpl.
    destruct (String.eqb t "application/xml"); [done|].
    by destruct (String.eqb t "application/json").
  - unfold parseResourceChangesOfType.
    destruct (String.eqb ct "application/json"); [done|].
    by destruct (String.eqb ct "application/xml").
Qed.

(** X18: Every route [registerResource] binds answers every request exactly
    once, for every resource and parser: the handler completes, sends one
    response whose status is one of 200, 201, 204, 400, 404, 405 and 500,
    and makes at most one call on the resource; when it makes none the
    store is as before. *)
Theorem every_route_responds_once resource parser (path : string) (i : nat)
    (route : Route TYPE Store Body) req w :
  registerResource resource parser [] path !! i = Some route ->
  exists w' response,
    routeHandler route req w = (Fulfilled tt, w') /\
    sent w' = sent w ++ [response] /\
    In (status response) [200; 201; 204; 400; 404; 405; 500] /\
    ((calls w' = calls w /\ store w' = store w) \/ exists c, calls w' = calls w ++ [c]).
Proof.
  intros Hroute.
  destruct i as [|[|[|[|[|[|i]]]]]]; simpl in Hroute; try discriminate;
    injection Hroute as <-; cbn [routeHandler].
  - rewrite listHandler_cases. cbv zeta.
    destruct (getAll resource (store w)).1; eexists _, _;
      (split; [reflexivity|]; split; [reflexivity|]; split; [simpl; tauto|]; right; by eexists).
  - rewrite getHandler_cases. cbv zeta.
    destruct (get resource (params_id req) (store w)).1; eexists _, _;
      (split; [reflexivity|]; split; [reflexivity|]; split; [simpl; tauto|]; right; by eexists).
  - rewrite createHandler_cases. destruct parser as [parse|].
    + destruct (parse (body req)) as [value|e].
      * cbv zeta. destruct (create resource value (store w)).1, (bodyText (body req));
          eexists _, _;
          (split; [reflexivity|]; split; [reflexivity|]; split; [simpl; tauto|];
           right; by eexists).
      * eexists _, _. split; [reflexivity|]. split; [reflexivity|].
        split; [simpl; tauto|]. by left.
    + eexists _, _. split; [reflexivity|]. split; [reflexivity|].
      split; [simpl; tauto|]. by left.
  - rewrite updateHandler_cases. destruct parser as [parse|].
    + destruct (parse (body req)) as [value|e].
      * cbv zeta.
        destruct (update resource (params_id req) value (store w)).1, (bodyText (body req));
          eexists _, _;
          (split; [reflexivity|]; split; [reflexivity|]; split; [simpl; tauto|];
           right; by eexists).
      * eexists _, _. split; [reflexivity|]. split; [reflexivity|].
        split; [simpl; tauto|]. by left.
    + eexists _, _. split; [reflexivity|]. split; [reflexivity|].
      split; [simpl; tauto|]. by left.
  - rewrite patchHandler_cases. destruct (adjust resource); eexists _, _;
      (split; [reflexivity|]; split; [reflexivity|]; split; [simpl; tauto|]; by left).
  - rewrite deleteHandler_cases. cbv zeta.
    destruct (delete resource (params_id req) (store w)).1; eexists _, _;
      (split; [reflexivity|]; split; [reflexivity|]; split; [simpl; tauto|]; right; by eexists).
Qed.

End Generic.

Lemma update_refused_before_store_witness :
  updateHandler skillsResource (Some skillParser)
    {| method := POST; params_id := "1"; contentType := None; body := ArrayBody |} startWorld
  = (Fulfilled tt,
     {| store := data; calls := [];
        sent := [ {| status := 400; payload := invalid skillsResource ArrayBody |} ] |}).
Proof.
  exact (update_refused_before_store skillsResource (Some skillParser)
           {| method := POST; params_id := "1"; contentType := None; body := ArrayBody |}
           startWorld (ex_intro _ _ eq_refl)).
Defined.

Lemma every_route_responds_once_witness :
  exists w' response,
    getHandler skillsResource (request GET "1" None) startWorld = (Fulfilled tt, w') /\
    sent w' = [response] /\
    In (status response) [200; 201; 204; 400; 404; 405; 500] /\
    ((calls w' = [] /\ store w' = data) \/ exists c, calls w' = [c]).
Proof.
  exact (every_route_responds_once skillsResource (Some skillParser) "/skills" 1
           {| routeMethod := GET; routePath := "/skills/:id";
              routeHandler := getHandler skillsResource |}
           (request GET "1" None) startWorld eq_refl).
Defined.

Section SkillsRoutes.
Variable randomUUID : nat -> string.
Implicit Types (req : Request SkillBody) (w : World SkillValue DataStore SkillBody).

(** X19: Creating a skill and fetching it back through the router: for every
    store, the create route given an object body that has no member named
    [toString] answers 201 with the identifier [randomUUID] returned, and
    the fetch route asked for that identifier next answers 200 with the
    skill made from the body. *)
Theorem routes_create_then_fetch req fetch w (n : string) (desc : option string) :
  body req = ObjectBody n desc ->
  params_id fetch = randomUUID (drawn (store w)) ->
  exists w1 w2,
    createHandler (Skills randomUUID) (Some skillParser) req w = (Fulfilled tt, w1) /\
    sent w1 = sent w ++ [ {| status := 201;
                             payload := JsonKey (randomUUID (drawn (store w))) |} ] /\
    getHandler (Skills randomUUID) fetch w1 = (Fulfilled tt, w2) /\
    sent w2 = sent w1 ++ [ {| status := 200; payload := JsonValue (Skill n desc) |} ].
Proof.
  intros Hbody Hid. rewrite createHandler_cases, Hbody. simpl.
  eexists _, _. split; [reflexivity|]. split; [reflexivity|].
  rewrite getHandler_cases, Hid. simpl.
  unfold Skills_get, newPromise. simpl.
  rewrite mapGet_mapSet, String.eqb_refl. split; reflexivity.
Qed.

(** X20: Replacing a skill and fetching it back: when the store holds the key,
    the full-update route given an object body that has no member named
    [toString] answers 204, and the fetch route asked for the same key next
    answers 200 with the skill made from the body. *)
Theorem routes_update_then_fetch req fetch w (n : string) (desc : option string) :
  mapHas (params_id req) (skills (store w)) = true ->
  body req = ObjectBody n desc ->
  params_id fetch = params_id req ->
  exists w1 w2,
    updateHandler (Skills randomUUID) (Some skillParser) req w = (Fulfilled tt, w1) /\
    sent w1 = sent w ++ [ {| status := 204; payload := Empty |} ] /\
    getHandler (Skills randomUUID) fetch w1 = (Fulfilled tt, w2) /\
    sent w2 = sent w1 ++ [ {| status := 200; payload := JsonValue (Skill n desc) |} ].
Proof.
  intros Hhas Hbody Hid. rewrite updateHandler_cases, Hbody. simpl.
  unfold Skills_update, newPromise. rewrite Hhas. simpl.
  eexists _, _. split; [reflexivity|]. split; [reflexivity|].
  rewrite getHandler_cases, Hid. simpl.
  unfold Skills_get, newPromise. simpl.
  rewrite mapGet_mapSet, String.eqb_refl. split; reflexivity.
Qed.

(** X21: Deleting a skill and fetching it: when the keys of the store are
    distinct and it holds the key, the delete route answers 200 with
    [true], and the fetch route asked for the same key next answers 404. *)
Theorem routes_delete_then_fetch req fetch w :
  NoDup (mapKeys (skills (store w))) ->
  mapHas (params_id req) (skills (store w)) = true ->
  params_id fetch = params_id req ->
  exists w1 w2,
    deleteHandler (Skills randomUUID) req w = (Fulfilled tt, w1) /\
    sent w1 = sent w ++ [ {| status := 200; payload := JsonBool true |} ] /\
    getHandler (Skills randomUUID) fetch w1 = (Fulfilled tt, w2) /\
    sent w2 = sent w1 ++ [ {| status := 404; payload := notFound (Skills randomUUID) |} ].
Proof.
  intros Hnd Hhas Hid. rewrite deleteHandler_cases. simpl.
  unfold Skills_delete, newPromise. rewrite Hhas.
  pose proof (mapDelete_found (params_id req) (skills (store w))) as Hfound.
  pose proof (mapDelete_NoDup (params_id req) (skills (store w)) Hnd) as [_ Hgone].
  destruct (mapDelete (params_id req) (skills (store w))) as [found rest]. simpl in *.
  rewrite Hfound, Hhas.
  eexists _, _. split; [reflexivity|]. split; [reflexivity|].
  rewrite getHandler_cases, Hid. simpl.
  unfold Skills_get, newPromise. simpl.
  unfold mapHas in Hgone. destruct (mapGet (params_id req) rest); [done|].
  split; reflexivity.
Qed.

(** X22: A key the store does not hold: the fetch and delete routes answer 404,
    the full-update route given an object body answers 400, and each leaves
    the store as it was. *)
Theorem routes_missing_key req w (n : string) (desc : option string) :
  mapHas (params_id req) (skills (store w)) = false ->
  body req = ObjectBody n desc ->
  getHandler (Skills randomUUID) req w
  = (Fulfilled tt,
     {| store := store w; calls := calls w ++ [CallGet (params_id req)];
        sent := sent w ++ [ {| status := 404; payload := notFound (Skills randomUUID) |} ] |}) /\
  deleteHandler (Skills randomUUID) req w
  = (Fulfilled tt,
     {| store := store w; calls := calls w ++ [CallDelete (params_id req)];
        sent := sent w ++ [ {| status := 404; payload := notFound (Skills randomUUID) |} ] |}) /\
  updateHandler (Skills randomUUID) (Some skillParser) req w
  = (Fulfilled tt,
     {| store := store w; calls := calls w ++ [CallUpdate (params_id req)];
        sent := sent w ++ [ {| status := 400;
                               payload := invalid (Skills randomUUID) (body req) |} ] |}).
Proof.
  intros Hno Hbody.
  rewrite getHandler_cases, deleteHandler_cases, updateHandler_cases, Hbody. simpl.
  unfold Skills_get, Skills_delete, Skills_update, newPromise. rewrite Hno.
  unfold mapHas in Hno. by destruct (mapGet (params_id req) (skills (store w))).
Qed.

(** X24: A body with a member named [toString] on the skills: the create
    route stores the skill and the full-update route, for a key the store
    holds, stores the new value, but each answers 400 with the body,
    because the log line written before the answer cannot convert the body
    to a string; the fetch route asked next for the identifier (the key)
    answers 200 with the skill made from the body. *)
Theorem routes_log_failure_after_write req fetchNew fetchKey w
    (n : string) (desc : option string) :
  body req = ObjectWithToString n desc ->
  params_id fetchNew = randomUUID (drawn (store w)) ->
  params_id fetchKey = params_id req ->
  mapHas (params_id req) (skills (store w)) = true ->
  (exists w1 w2,
     createHandler (Skills randomUUID) (Some skillParser) req w = (Fulfilled tt, w1) /\
     calls w1 = calls w ++ [CallCreate] /\
     sent w1 = sent w ++ [ {| status := 400;
                              payload := invalid (Skills randomUUID) (body req) |} ] /\
     getHandler (Skills randomUUID) fetchNew w1 = (Fulfilled tt, w2) /\
     sent w2 = sent w1 ++ [ {| status := 200; payload := JsonValue (Skill n desc) |} ]) /\
  (exists w1 w2,
     updateHandler (Skills randomUUID) (Some skillParser) req w = (Fulfilled tt, w1) /\
     calls w1 = calls w ++ [CallUpdate (params_id req)] /\
     sent w1 = sent w ++ [ {| status := 400;
                              payload := invalid (Skills randomUUID) (body req) |} ] /\
     getHandler (Skills randomUUID) fetchKey w1 = (Fulfilled tt, w2) /\
     sent w2 = sent w1 ++ [ {| status := 200; payload := JsonValue (Skill n desc) |} ]).
Proof.
  intros Hbody Hnew Hkey Hhas. split.
  - rewrite createHandler_cases, Hbody. simpl.
    eexists _, _. split; [reflexivity|]. split; [reflexivity|]. split; [reflexivity|].
    rewrite getHandler_cases, Hnew. simpl.
    unfold Skills_get, newPromise. simpl.
    rewrite mapGet_mapSet, String.eqb_refl. split; reflexivity.
  - rewrite updateHandler_cases, Hbody. simpl.
    unfold Skills_update, newPromise. rewrite Hhas. simpl.
    eexists _, _. split; [reflexivity|]. split; [reflexivity|]. split; [reflexivity|].
    rewrite getHandler_cases, Hkey. simpl.
    unfold Skills_get, newPromise. simpl.
    rewrite mapGet_mapSet, String.eqb_refl. split; reflexivity.
Qed.
End SkillsRoutes.

Lemma routes_log_failure_after_write_witness :
  exists w1 w2,
    updateHandler skillsResource (Some skillParser)
      {| method := POST; params_id := "1"; contentType := None;
         body := ObjectWithToString "Prudence" None |} startWorld = (Fulfilled tt, w1) /\
    calls w1 = [CallUpdate "1"] /\
    sent w1 = [ {| status := 400;
                   payload := invalid skillsResource (ObjectWithToString "Prudence" None) |} ] /\
    getHandler skillsResource (request GET "1" None) w1 = (Fulfilled tt, w2) /\
    sent w2 = sent w1 ++ [ {| status := 200; payload := JsonValue (Skill "Prudence" None) |} ].
Proof.
  exact (proj2 (routes_log_failure_after_write uuids
                  {| method := POST; params_id := "1"; contentType := None;
                     body := ObjectWithToString "Prudence" None |}
                  (request GET "uuid-0" None) (request GET "1" None) startWorld
                  "Prudence" None eq_refl eq_refl eq_refl eq_refl)).
Defined.

Lemma routes_create_then_fetch_witness :
  exists w1 w2,
    createHandler skillsResource (Some skillParser) (request POST "" None) startWorld
      = (Fulfilled tt, w1) /\
    sent w1 = [ {| status := 201; payload := JsonKey "uuid-0" |} ] /\
    getHandler skillsResource (request GET "uuid-0" None) w1 = (Fulfilled tt, w2) /\
    sent w2 = sent w1 ++ [ {| status := 200; payload := JsonValue (Skill "Prudence" None) |} ].
Proof.
  exact (routes_create_then_fetch uuids (request POST "" None) (request GET "uuid-0" None)
           startWorld "Prudence" None eq_refl eq_refl).
Defined.

Lemma routes_update_then_fetch_witness :
  exists w1 w2,
    updateHandler skillsResource (Some skillParser) (request POST "2" None) startWorld
      = (Fulfilled tt, w1) /\
    sent w1 = [ {| status := 204; payload := Empty |} ] /\
    getHandler skillsResource (request GET "2" None) w1 = (Fulfilled tt, w2) /\
    sent w2 = sent w1 ++ [ {| status := 200; payload := JsonValue (Skill "Prudence" None) |} ].
Proof.
  exact (routes_update_then_fetch uuids (request POST "2" None) (request GET "2" None)
           startWorld "Prudence" None eq_refl eq_refl eq_refl).
Defined.

Lemma routes_delete_then_fetch_witness :
  exists w1 w2,
    deleteHandler skillsResource (request DELETE "1" None) startWorld = (Fulfilled tt, w1) /\
    sent w1 = [ {| status := 200; payload := JsonBool true |} ] /\
    getHandler skillsResource (request GET "1" None) w1 = (Fulfilled tt, w2) /\
    sent w2 = sent w1 ++ [ {| status := 404; payload := notFound skillsResource |} ].
Proof.
  exact (routes_delete_then_fetch uuids (request DELETE "1" None) (request GET "1" None)
           startWorld data_keys_distinct eq_refl eq_refl).
Defined.

Lemma routes_missing_key_witness :
  getHandler skillsResource (request GET "3" None) startWorld
  = (Fulfilled tt,
     {| store := data; calls := [CallGet "3"];
        sent := [ {| status := 404; payload := notFound skillsResource |} ] |}).
Proof.
  exact (proj1 (routes_missing_key uuids (request GET "3" None) startWorld
                  "Prudence" None eq_refl eq_refl)).
Defined.

End RouterExtras.
